(** * Nonconformity functions (nonconformist/nc.py)

    A shallow embedding of the score functions and of the two adapter
    classes of [nc.py], and the properties the specification states about
    them.

    Conventions of the embedding.

    - A numpy floating-point scalar is a [num]: an exact rational, or one of
      the IEEE special values [PInf], [NInf], [NaN].  Arithmetic on finite
      values is exact: rounding, signed zeros and the narrowing of [prob]
      to [float32] are not modelled.  The special values are there because
      [margin] writes negative infinity into its argument.
    - Arrays the caller hands in, or that an adapter keeps, live in a heap
      [gmap loc ndarray] and are passed by location, so that writing
      through one reference is seen through every other.  Arrays created
      inside a score function and returned are passed back by value.
    - A Python function is a computation [Py A]: it takes the heap and gives
      back the heap together with either a value or the exception raised. *)

From Stdlib Require Import QArith Qcanon Qround Lqa.
From stdpp Require Import gmap list sorting numbers.

Open Scope Qc_scope.

(** ** Scalars *)

Module Num.

Inductive num : Type :=
| Fin (q : Qc)
| PInf
| NInf
| NaN.

#[export] Instance num_eq_dec : EqDecision num.
Proof. solve_decision. Defined.

#[export] Instance num_inhabited : Inhabited num := populate (Fin 0).

Definition opp (a : num) : num :=
match a with
| Fin q => Fin (- q)
| PInf => NInf
| NInf => PInf
| NaN => NaN
end.

Definition add (a b : num) : num :=
match a, b with
| NaN, _ | _, NaN => NaN
| Fin x, Fin y => Fin (x + y)
| PInf, NInf | NInf, PInf => NaN
| PInf, _ | _, PInf => PInf
| NInf, _ | _, NInf => NInf
end.

Definition sub (a b : num) : num := add a (opp b).

Definition abs (a : num) : num :=
match a with
| Fin q => Fin (if decide (q < 0) then - q else q)
| PInf | NInf => PInf
| NaN => NaN
end.

(** Sign of a scalar that is not NaN: [-1], [0] or [1]. *)
Definition sgn (a : num) : Z :=
match a with
| Fin q => if decide (q < 0) then (-1)%Z else if decide (0 < q) then 1%Z else 0%Z
| PInf => 1%Z
| NInf => (-1)%Z
| NaN => 0%Z
end.

Definition mul (a b : num) : num :=
match a, b with
| NaN, _ | _, NaN => NaN
| Fin x, Fin y => Fin (x * y)
| _, _ =>
    match (sgn a * sgn b)%Z with
    | Z0 => NaN
    | Zpos _ => PInf
    | Zneg _ => NInf
    end
end.

(** [a / 2]: every division of the source divides by the literal 2. *)
Definition half (a : num) : num :=
match a with
| Fin q => Fin (q / 2)
| _ => a
end.

(** The embedding of a Python [int] into the floats. *)
Definition of_Z (k : Z) : num := Fin (Qc_of_Z k).

(** IEEE comparisons: every comparison with NaN is false. *)
Definition leb (a b : num) : bool :=
match a, b with
| NaN, _ | _, NaN => false
| NInf, _ | _, PInf => true
| _, NInf | PInf, _ => false
| Fin x, Fin y => bool_decide (x <= y)
end.

Definition eqb (a b : num) : bool :=
match a, b with
| NaN, _ | _, NaN => false
| _, _ => bool_decide (a = b)
end.

(** [np.maximum] of two scalars: NaN propagates. *)
Definition max (a b : num) : num :=
match a, b with
| NaN, _ | _, NaN => NaN
| _, _ => if leb a b then b else a
end.

(** The order [np.sort] sorts by: the IEEE order on the other values, with
  NaN after everything else. *)
Definition sort_le (a b : num) : Prop :=
match a, b with
| _, NaN => True
| NaN, _ => False
| _, _ => leb a b = true
end.

#[export] Instance sort_le_dec : RelDecision sort_le.
Proof. intros [] []; simpl; apply _. Defined.

End Num.
Export Num.

Declare Scope num_scope.
Delimit Scope num_scope with num.
Bind Scope num_scope with num.
Infix "+" := Num.add : num_scope.
Infix "-" := Num.sub : num_scope.
Infix "*" := Num.mul : num_scope.
Notation "- x" := (Num.opp x) : num_scope.

(** ** Heap, exceptions and the computation monad *)

Inductive ndarray : Type :=
| Arr1 (v : list num)            (* 1-D array of floats *)
| Arr2 (rows : list (list num))  (* 2-D array of floats, row by row *)
| ArrI (v : list Z).             (* 1-D array of integers *)

Abbreviation loc := positive (only parsing).
Abbreviation heap := (gmap positive ndarray) (only parsing).

Inductive exn : Type :=
| IndexError
| ValueError
| OverflowError
| TypeError
| AttributeError
| ModelError.

Inductive result (A : Type) : Type :=
| Ok (a : A)
| Raise (e : exn).
Arguments Ok {A} a.
Arguments Raise {A} e.

Definition Py (A : Type) : Type := heap → result A * heap.

Definition ret {A} (a : A) : Py A := fun h => (Ok a, h).

Definition raise {A} (e : exn) : Py A := fun h => (Raise e, h).

Definition bind {A B} (c : Py A) (k : A → Py B) : Py B :=
  fun h =>
    match c h with
    | (Ok a, h') => k a h'
    | (Raise e, h') => (Raise e, h')
    end.

Notation "'let!' x ':=' c 'in' k" := (bind c (fun x => k))
  (at level 10, x pattern, c at level 100, k at level 200).
Notation "c ';;' k" := (bind c (fun _ => k))
  (at level 100, k at level 200, right associativity).

(** Turning a failed lookup into the exception Python raises. *)
Definition expect {A} (e : exn) (o : option A) : Py A :=
  match o with
  | Some a => ret a
  | None => raise e
  end.

Definition read (l : loc) : Py ndarray := fun h => expect TypeError (h !! l) h.

Definition write (l : loc) (a : ndarray) : Py unit := fun h => (Ok tt, <[l := a]> h).

(** A new array object: its location is not in use. *)
Definition alloc (a : ndarray) : Py loc :=
  fun h => let l := fresh (dom h) in (Ok l, <[l := a]> h).

Definition read_vec (l : loc) : Py (list num) :=
  let! a := read l in
  match a with Arr1 v => ret v | _ => raise TypeError end.

Definition read_mat (l : loc) : Py (list (list num)) :=
  let! a := read l in
  match a with Arr2 rows => ret rows | _ => raise TypeError end.

Definition read_ivec (l : loc) : Py (list Z) :=
  let! a := read l in
  match a with ArrI v => ret v | _ => raise TypeError end.

(** ** numpy primitives *)

(** An index into an axis of length [len]: a negative index counts from the
    end, anything outside [-len, len) is an IndexError. *)
Definition norm_index (len : nat) (i : Z) : option nat :=
  if decide (0 ≤ i < Z.of_nat len)%Z then Some (Z.to_nat i)
  else if decide (- Z.of_nat len ≤ i < 0)%Z then Some (Z.to_nat (Z.of_nat len + i))
  else None.
Arguments norm_index : simpl never.

(** [a[i]] on a 1-D array. *)
Definition getitem {A} (a : list A) (i : Z) : Py A :=
  expect IndexError (norm_index (length a) i ≫= (a !!.)).

(** [m[i, j]] on the 2-D array at [m]. *)
Definition getitem2 (m : loc) (i : nat) (j : Z) : Py num :=
  let! rows := read_mat m in
  let! row := expect IndexError (rows !! i) in
  getitem row j.

(** [m[i, j] = v] on the 2-D array at [m], in place. *)
Definition setitem2 (m : loc) (i : nat) (j : Z) (v : num) : Py unit :=
  let! rows := read_mat m in
  let! row := expect IndexError (rows !! i) in
  let! j' := expect IndexError (norm_index (length row) j) in
  write m (Arr2 (<[i := <[j' := v]> row]> rows)).

(** [for i, a in enumerate(l): s = body(i, a, s)], started at index [i]. *)
Fixpoint for_enumerate {A St} (body : nat → A → St → Py St)
    (i : nat) (l : list A) (s : St) : Py St :=
  match l with
  | [] => ret s
  | a :: l' => let! s' := body i a s in for_enumerate body (S i) l' s'
  end.

(** [a.max()] of a 1-D array; numpy refuses an empty one. *)
Definition arr_max (a : list num) : Py num :=
  match a with
  | [] => raise ValueError
  | x :: a' => ret (foldl Num.max x a')
  end.

(** [m.max(axis=1)]: the maximum of every row. *)
Fixpoint max_axis1 (rows : list (list num)) : Py (list num) :=
  match rows with
  | [] => ret []
  | r :: rows' =>
      let! x := arr_max r in
      let! xs := max_axis1 rows' in
      ret (x :: xs)
  end.

(** An elementwise binary operation on two 1-D arrays, with numpy's
    broadcasting of an array of length one. *)
Definition broadcast2 (f : num → num → num) (a b : list num) : Py (list num) :=
  if decide (length a = length b) then ret (zip_with f a b)
  else match a, b with
       | [x], _ => ret (map (f x) b)
       | _, [y] => ret (map (fun x => f x y) a)
       | _, _ => raise ValueError
       end.

(** [int(np.floor(x))]. *)
Definition int_floor (x : num) : Py Z :=
  match x with
  | Fin q => ret (Qfloor q)
  | PInf | NInf => raise OverflowError
  | NaN => raise ValueError
  end.

(** [np.sort(a)]: a new array, ascending, NaN last. *)
Definition np_sort (a : list num) : list num := merge_sort Num.sort_le a.

(** [np.vstack([a, b]).T] for two 1-D arrays: one row [[a_i, b_i]] per
    position. *)
Definition vstack_T (a b : list num) : Py (list (list num)) :=
  if decide (length a = length b)
  then ret (zip_with (fun x y => [x; y]) a b)
  else raise ValueError.

(** ** Classification error functions *)

(** The loop body [prob[i] = prediction[i, y[i]]]. *)
Definition inverse_probability_body (prediction : loc) (y_ : list Z)
    (i : nat) (_ : Z) (prob : list num) : Py (list num) :=
  let! yi := getitem y_ (Z.of_nat i) in
  let! p := getitem2 prediction i yi in
  ret (<[i := p]> prob).

Definition inverse_probability (prediction y : loc) : Py (list num) :=
  let! y_ := read_ivec y in
  let! prob :=
    for_enumerate (inverse_probability_body prediction y_)
      0 y_ (replicate (length y_) (Fin 0)) in
  ret (map (fun p => Fin 1 - p)%num prob).

(** The loop body [prob[i] = prediction[i, y[i]]] followed by
    [prediction[i, y[i]] = -np.inf]. *)
Definition margin_body (prediction : loc) (y_ : list Z)
    (i : nat) (_ : Z) (prob : list num) : Py (list num) :=
  let! yi := getitem y_ (Z.of_nat i) in
  let! p := getitem2 prediction i yi in
  let prob := <[i := p]> prob in
  setitem2 prediction i yi NInf ;;
  ret prob.

Definition margin (prediction y : loc) : Py (list num) :=
  let! y_ := read_ivec y in
  let! prob :=
    for_enumerate (margin_body prediction y_)
      0 y_ (replicate (length y_) (Fin 0)) in
  let! rows := read_mat prediction in
  let! mx := max_axis1 rows in
  let! d := broadcast2 Num.sub prob mx in
  ret (map (fun v => Fin (1 / 2) - Num.half v)%num d).

(** ** Regression error functions *)

Definition absolute_error (prediction y : loc) : Py (list num) :=
  let! p := read_vec prediction in
  let! y_ := read_vec y in
  let! d := broadcast2 Num.sub p y_ in
  ret (map Num.abs d).

Definition absolute_error_inverse (prediction nc : loc) (significance : num)
    : Py (list (list num)) :=
  let! nc0 := read_vec nc in
  let nc_ := reverse (np_sort nc0) in
  let! fl := int_floor (significance * Num.of_Z (Z.of_nat (length nc_) + 1))%num in
  let border := (fl - 1)%Z in
  let border := Z.max border 0 in
  let! lower :=
    (let! w := getitem nc_ border in
     let! p := read_vec prediction in
     ret (map (fun x => x - w)%num p)) in
  let! upper :=
    (let! w := getitem nc_ border in
     let! p := read_vec prediction in
     ret (map (fun x => x + w)%num p)) in
  vstack_T lower upper.

Definition signed_error (prediction y : loc) : Py (list num) :=
  let! p := read_vec prediction in
  let! y_ := read_vec y in
  broadcast2 Num.sub p y_.

Definition signed_error_inverse (prediction nc : loc) (significance : num)
    : Py (list (list num)) :=
  let! nc0 := read_vec nc in
  let nc_ := reverse (np_sort nc0) in
  let! upper := int_floor (Num.half significance * Num.of_Z (Z.of_nat (length nc_) + 1))%num in
  let! lower :=
    int_floor ((Fin 1 - Num.half significance) * Num.of_Z (Z.of_nat (length nc_) + 1))%num in
  let upper := Z.max upper 0 in
  let lower := Z.min lower (Z.of_nat (length nc_) - 1) in
  let! lower_bounds :=
    (let! w := getitem nc_ lower in
     let! p := read_vec prediction in
     ret (map (fun x => x + w)%num p)) in
  let! upper_bounds :=
    (let! w := getitem nc_ upper in
     let! p := read_vec prediction in
     ret (map (fun x => x + w)%num p)) in
  vstack_T lower_bounds upper_bounds.

(** ** The adapters *)

(** [np.array_equal(a, b)]: same shape and [==] at every position.  An
    integer array is compared by value with a float array. *)
Definition vec_equal (u v : list num) : bool :=
  bool_decide (length u = length v)
  && forallb (fun p => Num.eqb p.1 p.2) (zip u v).

Definition as_float (a : ndarray) : ndarray :=
  match a with
  | ArrI v => Arr1 (Num.of_Z <$> v)
  | _ => a
  end.

Definition np_array_equal (a b : ndarray) : bool :=
  match as_float a, as_float b with
  | Arr1 u, Arr1 v => vec_equal u v
  | Arr2 u, Arr2 v =>
      bool_decide (length u = length v)
      && forallb (fun p => vec_equal p.1 p.2) (zip u v)
  | _, _ => false
  end.

(** [np.array_equal] on two references. *)
Definition array_equal (h : heap) (a b : loc) : bool :=
  match h !! a, h !! b with
  | Some u, Some v => np_array_equal u v
  | _, _ => false
  end.

(** [a.copy()]: a new array object with the contents of [a]. *)
Definition ndarray_copy (a : loc) : Py loc :=
  let! contents := read a in
  alloc contents.

(** A method of an object with state [St]: it may change the object and
    the heap, and returns or raises. *)
Definition Meth (St A : Type) : Type := St → heap → result A * St * heap.

(** What an adapter asks of the model it wraps.  The model is an object
    of its own; an inference gives back the location of the array it
    returns. *)
Module Classifier.
Class model (M : Type) : Type := {
  fit : loc → loc → Meth M unit;
  predict_proba : loc → Meth M loc
}.
End Classifier.

Module Regressor.
Class model (M : Type) : Type := {
  fit : loc → loc → Meth M unit;
  predict : loc → Meth M loc
}.
End Regressor.

(** A call an adapter made to the model it wraps. *)
Inductive call : Type :=
| CallFit (x y : loc)
| CallInfer (x : loc).

Definition is_infer (c : call) : bool :=
  match c with CallInfer _ => true | CallFit _ _ => false end.

(** The fields of an adapter that its methods read or write.  [calls] is
    not in the source: it records, in order, the calls made to the wrapped
    model. *)
Record adapter (M : Type) : Type := Adapter {
  last_x : option loc;
  last_prediction : option loc;
  clean : bool;
  model : M;
  calls : list call
}.
Arguments Adapter {M}.
Arguments last_x {M}.
Arguments last_prediction {M}.
Arguments clean {M}.
Arguments model {M}.
Arguments calls {M}.

(** The number of times the wrapped model's inference has been invoked. *)
Definition inference_count {M} (self : adapter M) : nat :=
  length (filter (fun c => is_infer c = true) (calls self)).

(** [__init__], given the model built from [model_class] and
    [model_params]. *)
Definition init {M} (m : M) : adapter M :=
  {| last_x := None; last_prediction := None; clean := false;
     model := m; calls := [] |}.

(** The guard of [underlying_predict]:
    [not self.clean or self.last_x is None
     or not np.array_equal(self.last_x, x)]. *)
Definition must_recompute {M} (self : adapter M) (x : loc) (h : heap) : bool :=
  negb (clean self)
  || match last_x self with
     | None => true
     | Some lx => negb (array_equal h lx x)
     end.

(** [return self.last_prediction.copy()]. *)
Definition return_copy {M} : Meth (adapter M) loc :=
  fun self h =>
    match last_prediction self with
    | None => (Raise AttributeError, self, h)
    | Some p => let '(r, h') := ndarray_copy p h in (r, self, h')
    end.

Module ProbEstClassifierNc.
Section Methods.
Context {M : Type} {C : Classifier.model M}.
(** The injected score function, [self.err_func]. *)
Context {R : Type} (err_func : loc → loc → Py R).

Definition fit (x y : loc) : Meth (adapter M) unit :=
  fun self h =>
    let '(r, m, h') := Classifier.fit x y (model self) h in
    let self :=
      {| last_x := last_x self; last_prediction := last_prediction self;
         clean := clean self; model := m;
         calls := calls self ++ [CallFit x y] |} in
    match r with
    | Ok _ =>
        (Ok tt,
         {| last_x := last_x self; last_prediction := last_prediction self;
            clean := false; model := model self; calls := calls self |},
         h')
    | Raise e => (Raise e, self, h')
    end.

Definition underlying_predict (x : loc) : Meth (adapter M) loc :=
  fun self h =>
    if must_recompute self x h then
      let self :=
        {| last_x := Some x; last_prediction := last_prediction self;
           clean := clean self; model := model self; calls := calls self |} in
      let '(r, m, h') := Classifier.predict_proba x (model self) h in
      let self :=
        {| last_x := last_x self; last_prediction := last_prediction self;
           clean := clean self; model := m;
           calls := calls self ++ [CallInfer x] |} in
      match r with
      | Ok p =>
          return_copy
            {| last_x := last_x self; last_prediction := Some p;
               clean := true; model := model self; calls := calls self |}
            h'
      | Raise e => (Raise e, self, h')
      end
    else return_copy self h.

Definition calc_nc (x y : loc) : Meth (adapter M) R :=
  fun self h =>
    match underlying_predict x self h with
    | (Ok prediction, self, h') =>
        let '(r, h'') := err_func prediction y h' in (r, self, h'')
    | (Raise e, self, h') => (Raise e, self, h')
    end.
End Methods.
End ProbEstClassifierNc.

Module RegressorNc.
Section Methods.
Context {M : Type} {G : Regressor.model M}.
(** The injected functions, [self.err_func] and [self.inverse_err_func]. *)
Context {R I : Type} (err_func : loc → loc → Py R)
        (inverse_err_func : loc → loc → num → Py I).

Definition fit (x y : loc) : Meth (adapter M) unit :=
  fun self h =>
    let '(r, m, h') := Regressor.fit x y (model self) h in
    let self :=
      {| last_x := last_x self; last_prediction := last_prediction self;
         clean := clean self; model := m;
         calls := calls self ++ [CallFit x y] |} in
    match r with
    | Ok _ =>
        (Ok tt,
         {| last_x := last_x self; last_prediction := last_prediction self;
            clean := false; model := model self; calls := calls self |},
         h')
    | Raise e => (Raise e, self, h')
    end.

Definition underlying_predict (x : loc) : Meth (adapter M) loc :=
  fun self h =>
    if must_recompute self x h then
      let self :=
        {| last_x := Some x; last_prediction := last_prediction self;
           clean := clean self; model := model self; calls := calls self |} in
      let '(r, m, h') := Regressor.predict x (model self) h in
      let self :=
        {| last_x := last_x self; last_prediction := last_prediction self;
           clean := clean self; model := m;
           calls := calls self ++ [CallInfer x] |} in
      match r with
      | Ok p =>
          return_copy
            {| last_x := last_x self; last_prediction := Some p;
               clean := true; model := model self; calls := calls self |}
            h'
      | Raise e => (Raise e, self, h')
      end
    else return_copy self h.

Definition calc_nc (x y : loc) : Meth (adapter M) R :=
  fun self h =>
    match underlying_predict x self h with
    | (Ok prediction, self, h') =>
        let '(r, h'') := err_func prediction y h' in (r, self, h'')
    | (Raise e, self, h') => (Raise e, self, h')
    end.

Definition predict (x nc : loc) (significance : num) : Meth (adapter M) I :=
  fun self h =>
    match underlying_predict x self h with
    | (Ok prediction, self, h') =>
        let '(r, h'') := inverse_err_func prediction nc significance h' in
        (r, self, h'')
    | (Raise e, self, h') => (Raise e, self, h')
    end.
End Methods.
End RegressorNc.

(** The regressor adapter caches exactly as the classifier adapter does:
    a point-estimating model seen as a model whose inference is
    [predict]. *)
Definition as_classifier {M} {G : Regressor.model M} : Classifier.model M :=
  {| Classifier.fit := Regressor.fit; Classifier.predict_proba := Regressor.predict |}.

(** ** The contracts of the cache *)


(** A computation that writes no array other than the one at [l0]. *)
Definition writes_only {A} (l0 : loc) (c : Py A) : Prop :=
  ∀ (h : heap) (l : loc), l ≠ l0 → (c h).2 !! l = h !! l.

(** A score function that writes no array other than the prediction it is
    handed. *)
Definition writes_only_prediction {R} (err_func : loc → loc → Py R) : Prop :=
  ∀ prediction y : loc, writes_only prediction (err_func prediction y).

(** The defensive-copy contract of an adapter with the methods
    [underlying_predict] and [calc_nc].  When [underlying_predict] returns,
    what it returns is an array object other than the cached prediction,
    holding the same contents; so whatever is then written into the returned
    array, the cached prediction stays as it is.  In particular [calc_nc]
    leaves the cached prediction as [underlying_predict] left it, for every
    score function that writes only the prediction it is handed, such as
    [margin]. *)
Definition defensive_copy_contract {M}
    (underlying_predict : loc → Meth (adapter M) loc)
    (calc_nc : ∀ R, (loc → loc → Py R) → loc → loc → Meth (adapter M) R) : Prop :=
  ∀ (self self1 : adapter M) (h h1 : heap) (x p : loc),
    underlying_predict x self h = (Ok p, self1, h1) →
    ∃ (cached : loc) (arr : ndarray),
      last_prediction self1 = Some cached
      ∧ h1 !! cached = Some arr
      ∧ h1 !! p = Some arr
      ∧ p ≠ cached
      ∧ (∀ arr' : ndarray, <[p := arr']> h1 !! cached = Some arr)
      ∧ (∀ R (err_func : loc → loc → Py R) (y : loc),
           writes_only_prediction err_func →
           ∃ r h2,
             calc_nc R err_func x y self h = (r, self1, h2)
             ∧ h2 !! cached = Some arr)
      ∧ (∀ y : loc,
           ∃ r h2,
             calc_nc (list num) margin x y self h = (r, self1, h2)
             ∧ h2 !! cached = Some arr).

(** ** Predicates used in the statements *)

(** A computation that never writes the heap, whatever it returns. *)
Definition readonly {A} (c : Py A) : Prop := ∀ h, (c h).2 = h.

(** Elementwise [==] of two arrays holding true at every position. *)
Definition all_equal (a b : list num) : Prop :=
  Forall2 (fun x y => Num.eqb x y = true) a b.

Definition all_nonneg (a : list num) : Prop :=
  Forall (fun x => Num.leb (Fin 0) x = true) a.

(** [r[j]], for an index [j] known to be in range. *)
Definition pick (r : list num) (j : Z) : num := r !!! Z.to_nat j.

(** The row maximum over the entries other than entry [j]; with no other
    entry it is negative infinity, the neutral element of the maximum. *)
Definition max_remaining (r : list num) (j : Z) : num :=
  foldr Num.max NInf (delete (Z.to_nat j) r).

(** The value the specification gives for one sample of [margin]. *)
Definition spec_margin_score (r : list num) (j : Z) : num :=
  (Fin (1 / 2) - Num.half (pick r j - max_remaining r j))%num.


(** A row with entry [j] overwritten by negative infinity and every other
    entry as it was. *)
Definition overwritten (r : list num) (j : Z) : list num :=
  <[Z.to_nat j := NInf]> r.

(** One label per row, each a column index of its row. *)
Definition labels_in_range (rows : list (list num)) (ys : list Z) : Prop :=
  Forall2 (fun r yi => (0 ≤ yi < Z.of_nat (length r))%Z) rows ys.

(** A row that is a probability distribution: finite entries between 0
    and 1 that add up to 1. *)
Definition distribution (r : list num) : Prop :=
  ∃ qs : list Qc,
    r = Fin <$> qs ∧ Forall (fun q => 0 ≤ q ∧ q ≤ 1) qs ∧ foldr Qcplus 0 qs = 1.

Definition in_interval (lo hi : Qc) (a : num) : Prop :=
  Num.leb (Fin lo) a = true ∧ Num.leb a (Fin hi) = true.

(** Descending order on the rationals. *)
Definition descending (l : list Qc) : Prop := StronglySorted (fun a b => b ≤ a) l.

(** ** Concrete inputs *)

(** The rational [a / b]. *)
Definition frac (a : Z) (b : positive) : Qc := Q2Qc (a # b).

(** A heap holding a prediction matrix at location 1 and a label vector at
    location 2. *)
Definition classification_heap (rows : list (list num)) (ys : list Z) : heap :=
  <[1%positive := Arr2 rows]> (<[2%positive := ArrI ys]> ∅).

(** A heap holding two 1-D float arrays, at locations 1 and 2. *)
Definition regression_heap (a b : list num) : heap :=
  <[1%positive := Arr1 a]> (<[2%positive := Arr1 b]> ∅).

(** A heap holding a feature matrix at location 1, a label vector at
    location 2 and a second feature matrix at location 3. *)
Definition features_heap (x : list (list num)) (ys : list Z)
    (x' : list (list num)) : heap :=
  <[1%positive := Arr2 x]> (<[2%positive := ArrI ys]> (<[3%positive := Arr2 x']> ∅)).

(** A classifier without state: training does nothing, and every inference
    returns a new array holding [out]. *)
Definition constant_classifier (out : ndarray) : Classifier.model unit :=
  {| Classifier.fit := fun _ _ m h => (Ok tt, m, h);
     Classifier.predict_proba :=
       fun _ m h => let '(r, h') := alloc out h in (r, m, h') |}.

(** A regressor without state, likewise. *)
Definition constant_regressor (out : ndarray) : Regressor.model unit :=
  {| Regressor.fit := fun _ _ m h => (Ok tt, m, h);
     Regressor.predict :=
       fun _ m h => let '(r, h') := alloc out h in (r, m, h') |}.

(** A heap holding three 1-D float arrays: predictions at location 1,
    targets at location 2 and a calibration pool at location 3. *)
Definition calibration_heap (p y nc : list num) : heap :=
  <[1%positive := Arr1 p]> (<[2%positive := Arr1 y]> (<[3%positive := Arr1 nc]> ∅)).

(** The matrix [margin] has reached after its first [k] samples: the
    first [k] rows overwritten at their labels, the others as they were. *)
Definition overwritten_upto (rows : list (list num)) (ys : list Z) (k : nat)
    : list (list num) :=
  zip_with overwritten (take k rows) (take k ys) ++ drop k rows.



(** ** Further contracts of the adapters *)

(** What a failed training leaves behind, for an adapter with the methods
    [fit] and [underlying_predict] on a model trained by [model_fit]: the
    exception is passed on, the model is as the failed training left it, and
    the cache is not invalidated: an input the cache answered before is
    still answered from the cache, without inference. *)
Definition fit_failure_contract {M}
    (model_fit : loc → loc → Meth M unit)
    (fit : loc → loc → Meth (adapter M) unit)
    (underlying_predict : loc → Meth (adapter M) loc) : Prop :=
  ∀ (self : adapter M) (h h' : heap) (xt yt : loc) (e : exn) (m : M),
    model_fit xt yt (model self) h = (Raise e, m, h') →
    ∃ self' : adapter M,
      fit xt yt self h = (Raise e, self', h')
      ∧ last_x self' = last_x self
      ∧ last_prediction self' = last_prediction self
      ∧ clean self' = clean self
      ∧ model self' = m
      ∧ calls self' = calls self ++ [CallFit xt yt]
      ∧ ∀ (x cached : loc) (arr : ndarray),
          must_recompute self x h' = false →
          last_prediction self = Some cached → h' !! cached = Some arr →
          underlying_predict x self' h'
          = (Ok (fresh (dom h')), self', <[fresh (dom h') := arr]> h').

(** What a failed inference leaves behind, for an adapter with the method
    [underlying_predict] on a model with inference [model_infer]: the
    exception is passed on; [last_x] is already the new input while
    [last_prediction] and [clean] are as before.  So if the adapter was
    clean, the next call with an input equal to the one that failed is
    answered, without inference, with the prediction cached for the input
    before it. *)
Definition inference_failure_contract {M}
    (model_infer : loc → Meth M loc)
    (underlying_predict : loc → Meth (adapter M) loc) : Prop :=
  ∀ (self : adapter M) (h h' : heap) (x : loc) (e : exn) (m : M),
    must_recompute self x h = true →
    model_infer x (model self) h = (Raise e, m, h') →
    ∃ self' : adapter M,
      underlying_predict x self h = (Raise e, self', h')
      ∧ last_x self' = Some x
      ∧ last_prediction self' = last_prediction self
      ∧ clean self' = clean self
      ∧ calls self' = calls self ++ [CallInfer x]
      ∧ ∀ (x2 cached : loc) (arr : ndarray),
          clean self = true →
          last_prediction self = Some cached → h' !! cached = Some arr →
          array_equal h' x x2 = true →
          underlying_predict x2 self' h'
          = (Ok (fresh (dom h')), self', <[fresh (dom h') := arr]> h').

(** The cache holds a reference to its input, not a copy.  After a call of
    [underlying_predict] on [x] that recomputed, new contents written into
    the array [x] (contents equal to themselves, so without NaN) are not
    noticed: the next call on [x] is answered from the cache without
    inference. *)
Definition input_alias_contract {M}
    (underlying_predict : loc → Meth (adapter M) loc) : Prop :=
  ∀ (self self1 : adapter M) (h h1 : heap) (x p1 : loc),
    must_recompute self x h = true →
    underlying_predict x self h = (Ok p1, self1, h1) →
    ∃ (cached : loc) (arr : ndarray),
      last_prediction self1 = Some cached
      ∧ h1 !! cached = Some arr
      ∧ ∀ arr' : ndarray,
          x ≠ cached → np_array_equal arr' arr' = true →
          underlying_predict x self1 (<[x := arr']> h1)
          = (Ok (fresh (dom (<[x := arr']> h1))), self1,
             <[fresh (dom (<[x := arr']> h1)) := arr]> (<[x := arr']> h1)).

(** A clean adapter has a cached input and a cached prediction. *)
Definition cache_consistent {M} (self : adapter M) : Prop :=
  clean self = true → is_Some (last_x self) ∧ is_Some (last_prediction self).

(** A classifier whose training and inference both raise. *)
Definition broken_classifier : Classifier.model unit :=
  {| Classifier.fit := fun _ _ m h => (Raise ModelError, m, h);
     Classifier.predict_proba := fun _ m h => (Raise ModelError, m, h) |}.

(** A clean adapter without model state, caching [prediction] for the
    input [x]. *)
Definition clean_adapter (x prediction : loc) : adapter unit :=
  {| last_x := Some x; last_prediction := Some prediction; clean := true;
     model := tt; calls := [] |}.

(** * Properties *)

(** ** Arithmetic on canonical rationals *)

Lemma Qc_this_plus (a b : Qc) : (this (a + b) == this a + this b)%Q.
Proof. simpl. apply Qred_correct. Qed.

Lemma Qc_this_opp (a : Qc) : (this (- a) == - this a)%Q.
Proof. simpl. apply Qred_correct. Qed.

Lemma Qc_this_minus (a b : Qc) : (this (a - b) == this a - this b)%Q.
Proof. unfold Qcminus. rewrite Qc_this_plus, Qc_this_opp. reflexivity. Qed.

Lemma Qc_this_mult (a b : Qc) : (this (a * b) == this a * this b)%Q.
Proof. simpl. apply Qred_correct. Qed.

Lemma Qc_this_half (a : Qc) : (this (a / 2) == this a * (1 # 2))%Q.
Proof. unfold Qcdiv. rewrite Qc_this_mult. reflexivity. Qed.

Lemma Qc_this_of_Z (k : Z) : this (Qc_of_Z k) = inject_Z k.
Proof. reflexivity. Qed.

Lemma Qc_eq_this (a b : Qc) : a = b ↔ (this a == this b)%Q.
Proof.
  split; [intros ->; reflexivity | apply Qc_is_canon].
Qed.

(** Push [this] through the operations in the goal and in a hypothesis. *)
Ltac qc_push :=
  repeat first
    [ rewrite Qc_this_half | rewrite Qc_this_minus | rewrite Qc_this_plus
    | rewrite Qc_this_opp | rewrite Qc_this_mult | rewrite Qc_this_of_Z ].

Ltac qc_push_in H :=
  repeat first
    [ rewrite Qc_this_half in H | rewrite Qc_this_minus in H
    | rewrite Qc_this_plus in H | rewrite Qc_this_opp in H
    | rewrite Qc_this_mult in H | rewrite Qc_this_of_Z in H ].

(** Linear arithmetic over [Qc], by translation to [Q]. *)
Ltac qc_lra :=
  repeat match goal with
  | H : ¬ (_ ≤ _)%Qc |- _ => apply Qcnot_le_lt in H
  | H : ¬ (_ < _)%Qc |- _ => apply Qcnot_lt_le in H
  | H : @eq Qc _ _ |- _ => apply Qc_eq_this in H
  | |- @eq Qc _ _ => apply Qc_is_canon
  | |- ¬ (_ ≤ _)%Qc => apply Qclt_not_le
  | |- ¬ (_ < _)%Qc => apply Qcle_not_lt
  end;
  unfold Qcle, Qclt in *;
  qc_push;
  repeat match goal with
  | H : context [this _] |- _ => progress qc_push_in H
  end;
  change (this 0) with 0%Q in *;
  change (this 1) with 1%Q in *;
  lra.

Lemma Qc_half_bounds (a b : Qc) :
  0 ≤ a → a ≤ 1 → 0 ≤ b → b ≤ 1 →
  0 ≤ 1 / 2 - (a - b) / 2 ∧ 1 / 2 - (a - b) / 2 ≤ 1.
Proof. intros; split; qc_lra. Qed.



Lemma Qc_abs_swap (a b : Qc) :
  (if decide (a - b < 0) then - (a - b) else a - b)
  = (if decide (b - a < 0) then - (b - a) else b - a).
Proof. repeat case_decide; qc_lra. Qed.

Lemma Qc_abs_nonneg (a : Qc) : 0 ≤ (if decide (a < 0) then - a else a).
Proof. case_decide; qc_lra. Qed.

Lemma Qc_minus_swap (a b : Qc) : a - b = - (b - a).
Proof. ring. Qed.


(** ** Running computations *)

Lemma bind_ok {A B} (c : Py A) (k : A → Py B) h a h' :
  c h = (Ok a, h') → bind c k h = k a h'.
Proof. unfold bind. by intros ->. Qed.

Lemma bind_ret {A B} (a : A) (k : A → Py B) h : bind (ret a) k h = k a h.
Proof. done. Qed.

Lemma read_ok h l a : h !! l = Some a → read l h = (Ok a, h).
Proof. unfold read. by intros ->. Qed.

Lemma read_vec_ok h l v : h !! l = Some (Arr1 v) → read_vec l h = (Ok v, h).
Proof. intros H. unfold read_vec. by rewrite (bind_ok _ _ _ _ _ (read_ok _ _ _ H)). Qed.

Lemma read_mat_ok h l rows : h !! l = Some (Arr2 rows) → read_mat l h = (Ok rows, h).
Proof. intros H. unfold read_mat. by rewrite (bind_ok _ _ _ _ _ (read_ok _ _ _ H)). Qed.

Lemma read_ivec_ok h l v : h !! l = Some (ArrI v) → read_ivec l h = (Ok v, h).
Proof. intros H. unfold read_ivec. by rewrite (bind_ok _ _ _ _ _ (read_ok _ _ _ H)). Qed.

Lemma norm_index_in_range len (j : Z) :
  (0 ≤ j < Z.of_nat len)%Z → norm_index len j = Some (Z.to_nat j).
Proof. intros Hj. unfold norm_index. by rewrite decide_True. Qed.

Lemma getitem_ok {A} (a : list A) (j : Z) x h :
  (0 ≤ j)%Z → a !! Z.to_nat j = Some x → getitem a j h = (Ok x, h).
Proof.
  intros Hj Hx. unfold getitem.
  rewrite norm_index_in_range; [simpl; by rewrite Hx|].
  apply lookup_lt_Some in Hx. lia.
Qed.

Create HintDb readonly.

Lemma readonly_ret {A} (a : A) : readonly (ret a).
Proof. done. Qed.

Lemma readonly_raise {A} e : readonly (@raise A e).
Proof. done. Qed.

Lemma readonly_bind {A B} (c : Py A) (k : A → Py B) :
  readonly c → (∀ a, readonly (k a)) → readonly (bind c k).
Proof.
  intros Hc Hk h. unfold bind. specialize (Hc h).
  destruct (c h) as [[a|e] h']; simpl in *; subst; [apply Hk | done].
Qed.

Lemma readonly_expect {A} e (o : option A) : readonly (expect e o).
Proof. by destruct o. Qed.

Lemma readonly_read l : readonly (read l).
Proof. intros h. unfold read. apply readonly_expect. Qed.

#[export] Hint Resolve readonly_ret readonly_raise readonly_expect readonly_read : readonly.

Ltac readonly_tac :=
  repeat first
    [ progress auto with readonly
    | apply readonly_bind; [| intros ? ]
    | match goal with
      | |- readonly (match ?x with _ => _ end) => destruct x
      | |- readonly (if ?x then _ else _) => destruct x
      end ].

Lemma readonly_read_vec l : readonly (read_vec l).
Proof. unfold read_vec. readonly_tac. Qed.

Lemma readonly_read_mat l : readonly (read_mat l).
Proof. unfold read_mat. readonly_tac. Qed.

Lemma readonly_read_ivec l : readonly (read_ivec l).
Proof. unfold read_ivec. readonly_tac. Qed.

Lemma readonly_getitem {A} (a : list A) i : readonly (getitem a i).
Proof. unfold getitem. readonly_tac. Qed.

#[export] Hint Resolve readonly_read_vec readonly_read_mat readonly_read_ivec
  readonly_getitem : readonly.

Lemma readonly_getitem2 m i j : readonly (getitem2 m i j).
Proof. unfold getitem2. readonly_tac. Qed.


Lemma readonly_arr_max a : readonly (arr_max a).
Proof. unfold arr_max. readonly_tac. Qed.

#[export] Hint Resolve readonly_getitem2 readonly_arr_max : readonly.

Lemma readonly_max_axis1 rows : readonly (max_axis1 rows).
Proof. induction rows; simpl; readonly_tac. Qed.

Lemma readonly_broadcast2 f a b : readonly (broadcast2 f a b).
Proof. unfold broadcast2. readonly_tac. Qed.

Lemma readonly_int_floor x : readonly (int_floor x).
Proof. unfold int_floor. readonly_tac. Qed.

Lemma readonly_vstack_T a b : readonly (vstack_T a b).
Proof. unfold vstack_T. readonly_tac. Qed.

#[export] Hint Resolve readonly_max_axis1 readonly_broadcast2 readonly_int_floor
  readonly_vstack_T : readonly.


Lemma readonly_absolute_error prediction y : readonly (absolute_error prediction y).
Proof. unfold absolute_error. readonly_tac. Qed.

Lemma readonly_signed_error prediction y : readonly (signed_error prediction y).
Proof. unfold signed_error. readonly_tac. Qed.

Lemma readonly_absolute_error_inverse prediction nc s :
  readonly (absolute_error_inverse prediction nc s).
Proof. unfold absolute_error_inverse. readonly_tac. Qed.

Lemma readonly_signed_error_inverse prediction nc s :
  readonly (signed_error_inverse prediction nc s).
Proof. unfold signed_error_inverse. readonly_tac. Qed.

Lemma broadcast2_same_length f a b h :
  length a = length b → broadcast2 f a b h = (Ok (zip_with f a b), h).
Proof. intros Hl. unfold broadcast2. by rewrite decide_True. Qed.

(** ** Scalars: facts used below *)


(** ** The regression error functions are symmetric and antisymmetric *)

Lemma abs_sub_swap (ps ys : list Qc) :
  length ps = length ys →
  all_equal (Num.abs <$> zip_with Num.sub (Fin <$> ps) (Fin <$> ys))
            (Num.abs <$> zip_with Num.sub (Fin <$> ys) (Fin <$> ps)).
Proof.
  revert ys. induction ps as [|a ps IH]; intros [|b ys] Hl; simplify_eq/=;
    constructor; [|by apply IH].
  apply bool_decide_eq_true. f_equal. apply Qc_abs_swap.
Qed.

Lemma abs_sub_nonneg (ps ys : list Qc) :
  all_nonneg (Num.abs <$> zip_with Num.sub (Fin <$> ps) (Fin <$> ys)).
Proof.
  revert ys. induction ps as [|a ps IH]; intros [|b ys]; simpl;
    constructor; [|by apply IH].
  apply bool_decide_eq_true, Qc_abs_nonneg.
Qed.

Lemma sub_swap_opp (ps ys : list Qc) :
  length ps = length ys →
  all_equal (zip_with Num.sub (Fin <$> ps) (Fin <$> ys))
            (Num.opp <$> zip_with Num.sub (Fin <$> ys) (Fin <$> ps)).
Proof.
  revert ys. induction ps as [|a ps IH]; intros [|b ys] Hl; simplify_eq/=;
    constructor; [|by apply IH].
  apply bool_decide_eq_true. f_equal. apply Qc_minus_swap.
Qed.

(** C8: on two arrays of numbers of the same length, [absolute_error] gives
    the same array whichever way round its arguments are, every element of it
    is at least 0, and [signed_error(p, y)] is elementwise the negation of
    [signed_error(y, p)].  Neither function writes the heap. *)
Theorem error_functions_laws h (p y : loc) (ps ys : list Qc) :
  h !! p = Some (Arr1 (Fin <$> ps)) →
  h !! y = Some (Arr1 (Fin <$> ys)) →
  length ps = length ys →
  ∃ apy ayp spy syp,
    absolute_error p y h = (Ok apy, h) ∧
    absolute_error y p h = (Ok ayp, h) ∧
    signed_error p y h = (Ok spy, h) ∧
    signed_error y p h = (Ok syp, h) ∧
    length apy = length ps ∧ length spy = length ps ∧
    all_equal apy ayp ∧
    all_nonneg apy ∧
    all_equal spy (Num.opp <$> syp).
Proof.
  intros Hp Hy Hl.
  assert (Hl' : length (Fin <$> ps) = length (Fin <$> ys))
    by (by rewrite !length_fmap).
  eexists _, _, _, _.
  unfold absolute_error, signed_error.
  rewrite !(bind_ok _ _ _ _ _ (read_vec_ok _ _ _ Hp)).
  rewrite !(bind_ok _ _ _ _ _ (read_vec_ok _ _ _ Hy)).
  rewrite !(bind_ok _ _ _ _ _ (read_vec_ok _ _ _ Hp)).
  rewrite !(bind_ok _ _ _ _ _ (broadcast2_same_length _ _ _ _ Hl')).
  rewrite !(bind_ok _ _ _ _ _ (broadcast2_same_length _ _ _ _ (eq_sym Hl'))).
  rewrite !broadcast2_same_length by done.
  repeat split.
  - rewrite length_fmap, length_zip_with, !length_fmap. lia.
  - rewrite length_zip_with, !length_fmap. lia.
  - by apply abs_sub_swap.
  - apply abs_sub_nonneg.
  - by apply sub_swap_opp.
Qed.

(** ** The maximum *)

Lemma num_max_comm a b : Num.max a b = Num.max b a.
Proof.
  destruct a, b; simpl; try done.
  repeat case_bool_decide; try done; f_equal; qc_lra.
Qed.

Lemma num_max_assoc a b c : Num.max a (Num.max b c) = Num.max (Num.max a b) c.
Proof.
  destruct a, b, c; simpl; try done;
    repeat (case_bool_decide; simpl); try done;
    try (f_equal; qc_lra); exfalso; qc_lra.
Qed.

Lemma num_max_NInf_l a : Num.max NInf a = a.
Proof. by destruct a. Qed.

Lemma foldl_max_foldr x l :
  foldl Num.max x l = Num.max x (foldr Num.max NInf l).
Proof.
  revert x. induction l as [|a l IH]; intros x; simpl.
  - by rewrite num_max_comm, num_max_NInf_l.
  - by rewrite IH, num_max_assoc.
Qed.

Lemma foldr_max_overwritten r j :
  foldr Num.max NInf (<[j := NInf]> r) = foldr Num.max NInf (delete j r).
Proof.
  revert j. induction r as [|a r IH]; intros [|j]; simpl; try done.
  - apply num_max_NInf_l.
  - by rewrite IH.
Qed.

Lemma arr_max_overwritten r j h :
  (0 ≤ j < Z.of_nat (length r))%Z →
  arr_max (overwritten r j) h = (Ok (max_remaining r j), h).
Proof.
  intros Hj. unfold max_remaining. rewrite <- foldr_max_overwritten.
  unfold overwritten. destruct (<[Z.to_nat j := NInf]> r) as [|x l] eqn:E.
  - apply (f_equal length) in E. rewrite length_insert in E. simpl in E. lia.
  - simpl. by rewrite foldl_max_foldr.
Qed.

Lemma max_axis1_overwritten rows ys h :
  labels_in_range rows ys →
  max_axis1 (zip_with overwritten rows ys) h
  = (Ok (zip_with max_remaining rows ys), h).
Proof.
  induction 1 as [|r yi rows ys Hr _ IH]; simpl; [done|].
  rewrite (bind_ok _ _ _ _ _ (arr_max_overwritten _ _ _ Hr)).
  by rewrite (bind_ok _ _ _ _ _ IH).
Qed.

(** ** The sample loops *)

Lemma getitem2_ok h m rows i r (j : Z) :
  h !! m = Some (Arr2 rows) → rows !! i = Some r →
  (0 ≤ j < Z.of_nat (length r))%Z →
  getitem2 m i j h = (Ok (pick r j), h).
Proof.
  intros Hm Hr Hj. unfold getitem2.
  rewrite (bind_ok _ _ _ _ _ (read_mat_ok _ _ _ Hm)). rewrite Hr. simpl.
  rewrite bind_ret. apply getitem_ok; [lia|]. unfold pick.
  apply list_lookup_lookup_total_lt. lia.
Qed.

Lemma setitem2_ok h m rows i r (j : Z) v :
  h !! m = Some (Arr2 rows) → rows !! i = Some r →
  (0 ≤ j < Z.of_nat (length r))%Z →
  setitem2 m i j v h
  = (Ok tt, <[m := Arr2 (<[i := <[Z.to_nat j := v]> r]> rows)]> h).
Proof.
  intros Hm Hr Hj. unfold setitem2.
  rewrite (bind_ok _ _ _ _ _ (read_mat_ok _ _ _ Hm)). rewrite Hr. simpl.
  rewrite bind_ret. by rewrite norm_index_in_range.
Qed.

Lemma labels_in_range_lookup rows ys i :
  labels_in_range rows ys → (i < length ys)%nat →
  ∃ r yi, rows !! i = Some r ∧ ys !! i = Some yi
          ∧ (0 ≤ yi < Z.of_nat (length r))%Z.
Proof.
  intros Hin Hi. destruct (lookup_lt_is_Some_2 ys i Hi) as [yi Hyi].
  destruct (Forall2_lookup_r _ _ _ _ _ Hin Hyi) as (r & Hr & Hrange).
  by exists r, yi.
Qed.


Lemma margin_loop prediction rows ys :
  labels_in_range rows ys →
  ∀ n i prob cur h,
    n = (length ys - i)%nat → (i ≤ length ys)%nat → length prob = length ys →
    h !! prediction = Some (Arr2 cur) →
    drop i cur = drop i rows →
    for_enumerate (margin_body prediction ys) i (drop i ys) prob h
    = (Ok (take i prob ++ zip_with pick (drop i rows) (drop i ys)),
       <[prediction :=
           Arr2 (take i cur ++ zip_with overwritten (drop i rows) (drop i ys))]> h).
Proof.
  intros Hin. induction n as [|n IH]; intros i prob cur h Hn Hi Hlen Hm Hcur.
  - rewrite (drop_ge ys) by lia. rewrite !zip_with_nil_r. simpl.
    rewrite !app_nil_r, (take_ge prob) by lia.
    assert (Hlc : (length cur ≤ i)%nat).
    { apply (f_equal length) in Hcur. rewrite !length_drop in Hcur.
      apply Forall2_length in Hin. lia. }
    rewrite take_ge by lia. by rewrite insert_id.
  - destruct (labels_in_range_lookup rows ys i Hin) as (r & yi & Hr & Hyi & Hj);
      [lia|].
    assert (Hcr : cur !! i = Some r).
    { rewrite <- (Nat.add_0_r i), <- lookup_drop, Hcur, lookup_drop.
      by rewrite Nat.add_0_r. }
    rewrite (drop_S _ _ _ Hyi), (drop_S _ _ _ Hr). simpl.
    unfold margin_body at 1.
    erewrite bind_ok; [|erewrite bind_ok;
      [|apply getitem_ok; [lia | by rewrite Nat2Z.id]]].
    2:{ erewrite bind_ok; [|by eapply getitem2_ok].
        erewrite bind_ok; [|by eapply setitem2_ok]. reflexivity. }
    erewrite IH; [| lia | lia | by rewrite length_insert
                 | apply lookup_insert_eq | ].
    2:{ rewrite drop_insert_lt by lia.
        rewrite (drop_S _ _ _ Hcr), (drop_S _ _ _ Hr) in Hcur. by simplify_eq. }
    rewrite insert_insert_eq. f_equal; f_equal.
    + rewrite (take_S_r _ _ (pick r yi)).
      * rewrite take_insert_ge by lia. by rewrite <- app_assoc.
      * apply list_lookup_insert_eq. lia.
    + f_equal.
      rewrite (take_S_r _ _ (overwritten r yi)).
      * rewrite take_insert_ge by lia. by rewrite <- app_assoc.
      * apply list_lookup_insert_eq. by apply lookup_lt_Some in Hcr.
Qed.

(** ** [margin] and [inverse_probability] *)

Lemma margin_scores_fuse rows ys :
  map (fun v => Fin (1 / 2) - Num.half v)%num
      (zip_with Num.sub (zip_with pick rows ys) (zip_with max_remaining rows ys))
  = zip_with spec_margin_score rows ys.
Proof.
  revert ys. induction rows as [|r rows IH]; intros [|yi ys]; simpl; try done.
  by rewrite IH.
Qed.



Lemma margin_run h (prediction y : loc) rows ys :
  h !! prediction = Some (Arr2 rows) →
  h !! y = Some (ArrI ys) →
  labels_in_range rows ys →
  margin prediction y h
  = (Ok (zip_with spec_margin_score rows ys),
     <[prediction := Arr2 (zip_with overwritten rows ys)]> h).
Proof.
  intros Hm Hy Hin. pose proof (Forall2_length Hin) as Hlen.
  unfold margin.
  rewrite (bind_ok _ _ _ _ _ (read_ivec_ok _ _ _ Hy)).
  pose proof (margin_loop prediction rows ys Hin (length ys) 0
                (replicate (length ys) (Fin 0)) rows h) as Hloop.
  rewrite !drop_0, !take_0 in Hloop. simpl in Hloop.
  rewrite (bind_ok _ _ _ _ _
    (Hloop ltac:(lia) ltac:(lia) ltac:(by rewrite length_replicate) Hm eq_refl)).
  erewrite bind_ok; [|apply read_mat_ok, lookup_insert_eq].
  rewrite (bind_ok _ _ _ _ _ (max_axis1_overwritten _ _ _ Hin)).
  erewrite bind_ok; [|apply broadcast2_same_length; by rewrite !length_zip_with].
  unfold ret. by rewrite margin_scores_fuse.
Qed.



Lemma length_delete_lower {A} (l : list A) i :
  (length l - 1 ≤ length (delete i l))%nat.
Proof.
  revert i. induction l as [|a l IH]; intros [|i]; simpl; try lia.
  specialize (IH i). lia.
Qed.

(** The maximum of one or more finite values between 0 and 1 is one of
    them. *)
Lemma max_unit_interval (qs : list Qc) :
  qs ≠ [] → Forall (fun q => 0 ≤ q ∧ q ≤ 1) qs →
  ∃ m, foldr Num.max NInf (Fin <$> qs) = Fin m ∧ 0 ≤ m ∧ m ≤ 1.
Proof.
  induction qs as [|q qs IH]; [done|]. intros _ Hall.
  apply Forall_cons_1 in Hall as [Hq Hall]. destruct qs as [|q' qs].
  - exists q. by simpl.
  - destruct (IH ltac:(done) Hall) as (m & Hm & Hb).
    change (foldr Num.max NInf (Fin <$> q :: q' :: qs))
      with (Num.max (Fin q) (foldr Num.max NInf (Fin <$> q' :: qs))).
    rewrite Hm. simpl. case_bool_decide; eauto.
Qed.

Lemma distribution_pick r yi :
  distribution r → (0 ≤ yi < Z.of_nat (length r))%Z →
  ∃ p, pick r yi = Fin p ∧ 0 ≤ p ∧ p ≤ 1.
Proof.
  intros (qs & -> & Hall & _) Hyi. rewrite length_fmap in Hyi.
  destruct (lookup_lt_is_Some_2 qs (Z.to_nat yi) ltac:(lia)) as [p Hp].
  exists p. split.
  - unfold pick. apply list_lookup_total_correct. by rewrite list_lookup_fmap, Hp.
  - by apply (Forall_lookup_1 _ _ _ _ Hall Hp).
Qed.

Lemma distribution_max_remaining r yi :
  distribution r → (2 ≤ length r)%nat →
  ∃ m, max_remaining r yi = Fin m ∧ 0 ≤ m ∧ m ≤ 1.
Proof.
  intros (qs & -> & Hall & _) Hlen. rewrite length_fmap in Hlen.
  unfold max_remaining.
  rewrite <- list_fmap_delete. apply max_unit_interval.
  - intros E. apply (f_equal length) in E. simpl in E.
    pose proof (length_delete_lower qs (Z.to_nat yi)). lia.
  - apply Forall_delete, Hall.
Qed.

Lemma margin_half_interval_fails_two_classes :
  Forall distribution [[Fin (frac 1 5); Fin (frac 4 5)]]
  ∧ labels_in_range [[Fin (frac 1 5); Fin (frac 4 5)]] [0%Z]
  ∧ (margin 1%positive 2%positive
       (classification_heap [[Fin (frac 1 5); Fin (frac 4 5)]] [0%Z])).1
    = Ok [Fin (frac 4 5)]
  ∧ ¬ Forall (in_interval (- (1 / 2)) (1 / 2)) [Fin (frac 4 5)].
Proof.
  set (rows := [[Fin (frac 1 5); Fin (frac 4 5)]]). set (ys := [0%Z]).
  split; [|split; [|split]].
  - repeat constructor. exists [frac 1 5; frac 4 5].
    split; [done|]. split; [|by apply Qc_is_canon].
    repeat constructor; by vm_compute.
  - repeat constructor; simpl; lia.
  - rewrite (margin_run _ _ _ rows ys); [| done | done | repeat constructor; simpl; lia].
    simpl. f_equal. f_equal.
    unfold spec_margin_score, pick, max_remaining. simpl.
    f_equal. by apply Qc_is_canon.
  - intros H. apply Forall_cons_1 in H as [[_ H] _]. by vm_compute in H.
Qed.

Lemma margin_half_interval_fails_one_class :
  Forall distribution [[Fin 1]]
  ∧ labels_in_range [[Fin 1]] [0%Z]
  ∧ (margin 1%positive 2%positive (classification_heap [[Fin 1]] [0%Z])).1
    = Ok [NInf]
  ∧ ¬ Forall (in_interval (- (1 / 2)) (1 / 2)) [NInf].
Proof.
  set (rows := [[Fin 1]]). set (ys := [0%Z]).
  split; [|split; [|split]].
  - repeat constructor. exists [1]. split; [done|]. split; [|by apply Qc_is_canon].
    repeat constructor; by vm_compute.
  - repeat constructor; simpl; lia.
  - by rewrite (margin_run _ _ _ rows ys);
      [| done | done | repeat constructor; simpl; lia].
  - intros H. apply Forall_cons_1 in H as [[H _] _]. by vm_compute in H.
Qed.

(** C4, as the specification states it, fails: with two classes a sample
    whose true class has probability 0.2 scores 0.8, above 0.5; with a single
    class the only entry of a row is overwritten before the row maximum is
    taken and the score is negative infinity. *)
Lemma margin_half_interval_counterexample :
  (Forall distribution [[Fin (frac 1 5); Fin (frac 4 5)]]
   ∧ labels_in_range [[Fin (frac 1 5); Fin (frac 4 5)]] [0%Z]
   ∧ (margin 1%positive 2%positive
        (classification_heap [[Fin (frac 1 5); Fin (frac 4 5)]] [0%Z])).1
     = Ok [Fin (frac 4 5)]
   ∧ ¬ Forall (in_interval (- (1 / 2)) (1 / 2)) [Fin (frac 4 5)])
  ∧
  (Forall distribution [[Fin 1]]
   ∧ labels_in_range [[Fin 1]] [0%Z]
   ∧ (margin 1%positive 2%positive (classification_heap [[Fin 1]] [0%Z])).1
     = Ok [NInf]
   ∧ ¬ Forall (in_interval (- (1 / 2)) (1 / 2)) [NInf]).
Proof.
  split;
    [apply margin_half_interval_fails_two_classes
    |apply margin_half_interval_fails_one_class].
Qed.

Lemma margin_score_unit_interval r yi :
  distribution r → (2 ≤ length r)%nat → (0 ≤ yi < Z.of_nat (length r))%Z →
  in_interval 0 1 (spec_margin_score r yi).
Proof.
  intros Hd Hlen Hyi.
  destruct (distribution_pick r yi Hd Hyi) as (p & Hp & Hp0 & Hp1).
  destruct (distribution_max_remaining r yi Hd Hlen) as (m & Hm & Hm0 & Hm1).
  unfold spec_margin_score. rewrite Hp, Hm. simpl.
  destruct (Qc_half_bounds p m Hp0 Hp1 Hm0 Hm1).
  split; by apply bool_decide_eq_true.
Qed.

(** C4, amended: when the prediction matrix has at least two columns, its
    rows are probability distributions and the labels are in range, [margin]
    returns an array all of whose elements lie in [0, 1]. *)
Theorem margin_range h (prediction y : loc) rows ys :
  h !! prediction = Some (Arr2 rows) →
  h !! y = Some (ArrI ys) →
  labels_in_range rows ys →
  Forall distribution rows →
  Forall (fun r => (2 ≤ length r)%nat) rows →
  ∃ out h',
    margin prediction y h = (Ok out, h')
    ∧ length out = length rows
    ∧ Forall (in_interval 0 1) out.
Proof.
  intros Hm Hy Hin Hd H2. eexists _, _.
  split; [by apply margin_run|]. split.
  - rewrite length_zip_with. pose proof (Forall2_length Hin). lia.
  - clear Hm Hy. induction Hin as [|r yi rows ys Hr Hin IH]; simpl; [done|].
    apply Forall_cons_1 in Hd as [Hdr Hd]. apply Forall_cons_1 in H2 as [H2r H2].
    constructor; [by apply margin_score_unit_interval | by apply IH].
Qed.



(** ** Sorting *)

#[local] Instance sort_le_total : Total Num.sort_le.
Proof.
  intros [a| | |] [b| | |]; simpl; auto.
  destruct (Qc_le_total a b); [left|right]; by apply bool_decide_eq_true.
Qed.

#[local] Instance sort_le_trans : Transitive Num.sort_le.
Proof.
  intros [a| | |] [b| | |] [c| | |]; simpl; try done.
  rewrite !bool_decide_eq_true. apply Qcle_trans.
Qed.

#[local] Instance sort_le_antisymm : AntiSymm eq Num.sort_le.
Proof.
  intros [a| | |] [b| | |]; simpl; try done.
  rewrite !bool_decide_eq_true. intros. f_equal. by apply Qcle_antisym.
Qed.

Lemma np_sort_fin (qs : list Qc) :
  np_sort (Fin <$> qs) = Fin <$> merge_sort Qcle qs.
Proof.
  apply (StronglySorted_unique Num.sort_le).
  - apply StronglySorted_merge_sort; apply _.
  - apply (StronglySorted_fmap _ Qcle).
    + intros x y Hxy. simpl. by apply bool_decide_eq_true.
    + apply StronglySorted_merge_sort; apply _.
  - unfold np_sort. rewrite !merge_sort_Permutation. done.
Qed.

Lemma StronglySorted_reverse {A} (R : relation A) (l : list A) :
  StronglySorted R l → StronglySorted (flip R) (reverse l).
Proof.
  induction 1 as [|a l Hs IH Hall]; [constructor|].
  rewrite reverse_cons. apply StronglySorted_app_2.
  - intros x1 x2 Hx1 Hx2. apply list_elem_of_singleton in Hx2 as ->.
    unfold flip. rewrite elem_of_reverse in Hx1.
    by apply (proj1 (list.Forall_forall (R a) l) Hall).
  - done.
  - repeat constructor.
Qed.

Lemma StronglySorted_lookup_le {A} (R : relation A) `{!Reflexive R} (l : list A) i j a b :
  StronglySorted R l → (i ≤ j)%nat → l !! i = Some a → l !! j = Some b → R a b.
Proof.
  intros Hs. revert i j. induction Hs as [|x l Hs IH Hall]; intros i j Hij Ha Hb.
  - done.
  - destruct i as [|i], j as [|j]; simpl in Ha, Hb; try lia.
    + injection Ha as <-. injection Hb as <-. reflexivity.
    + injection Ha as <-.
      apply (proj1 (list.Forall_forall (R x) l) Hall).
      by eapply list_elem_of_lookup_2.
    + apply (IH i j); [lia|done..].
Qed.

(** ** The ranks the inverse functions select *)

Lemma Qfloor_lower (x : Q) (k : Z) : (inject_Z k <= x)%Q → (k ≤ Qfloor x)%Z.
Proof. intros H. rewrite <- (Qfloor_Z k). by apply Qfloor_resp_le. Qed.

Lemma Qfloor_upper (x : Q) (k : Z) : (x < inject_Z k)%Q → (Qfloor x < k)%Z.
Proof.
  intros H. rewrite Zlt_Qlt. eapply Qle_lt_trans; [apply Qfloor_le | done].
Qed.

Lemma pool_size_Q (n : nat) :
  (1 ≤ n)%nat →
  (inject_Z (Z.of_nat n + 1) == inject_Z (Z.of_nat n) + 1)%Q
  ∧ (1 <= inject_Z (Z.of_nat n))%Q.
Proof.
  intros Hn. split.
  - by rewrite inject_Z_plus.
  - change 1%Q with (inject_Z 1). rewrite <- Zle_Qle. lia.
Qed.

Ltac pool_nra HN :=
  rewrite HN; clear HN;
  match goal with
  | HM : (1 <= inject_Z (Z.of_nat ?n))%Q |- _ =>
      generalize dependent (inject_Z (Z.of_nat n)); intros
  end;
  nra.

Lemma border_bounds (s : Qc) (n : nat) :
  0 < s → s < 1 → (1 ≤ n)%nat →
  (0 ≤ Qfloor (s * Qc_of_Z (Z.of_nat n + 1))%Qc ≤ Z.of_nat n)%Z.
Proof.
  intros Hs0 Hs1 Hn. destruct (pool_size_Q n Hn) as [HN HM].
  unfold Qclt in *. change (this 0) with 0%Q in *. change (this 1) with 1%Q in *.
  split.
  - apply Qfloor_lower. qc_push. change (inject_Z 0) with 0%Q.
    pool_nra HN.
  - apply Z.lt_succ_r, Qfloor_upper. qc_push. unfold Z.succ. pool_nra HN.
Qed.

Lemma signed_bounds (s : Qc) (n : nat) :
  0 < s → s < 1 → (1 ≤ n)%nat →
  let upper := Qfloor (s / 2 * Qc_of_Z (Z.of_nat n + 1))%Qc in
  let lower := Qfloor ((1 - s / 2) * Qc_of_Z (Z.of_nat n + 1))%Qc in
  (0 ≤ upper ≤ Z.of_nat n - 1)%Z ∧ (upper ≤ lower)%Z ∧ (1 ≤ lower)%Z.
Proof.
  intros Hs0 Hs1 Hn upper lower. destruct (pool_size_Q n Hn) as [HN HM].
  unfold Qclt in *. change (this 0) with 0%Q in *. change (this 1) with 1%Q in *.
  split; [split|split].
  - apply Qfloor_lower. qc_push. change (inject_Z 0) with 0%Q. pool_nra HN.
  - apply Z.lt_le_pred, Qfloor_upper. qc_push. pool_nra HN.
  - apply Qfloor_resp_le. qc_push. change (this 1) with 1%Q. pool_nra HN.
  - apply Qfloor_lower. qc_push. change (this 1) with 1%Q.
    change (inject_Z 1) with 1%Q. pool_nra HN.
Qed.

(** ** The inverse functions *)

Lemma length_sorted_pool (ncs : list Qc) :
  length (reverse (merge_sort Qcle ncs)) = length ncs.
Proof. rewrite length_reverse. apply Permutation_length, merge_sort_Permutation. Qed.

Lemma vstack_T_intervals (ps : list Qc) (lo hi : Qc) h :
  vstack_T (map (fun x => x + Fin lo)%num (Fin <$> ps))
           (map (fun x => x + Fin hi)%num (Fin <$> ps)) h
  = (Ok ((fun p => [Fin (p + lo); Fin (p + hi)]) <$> ps), h).
Proof.
  unfold vstack_T. rewrite decide_True by (by rewrite !length_map).
  unfold ret. do 2 f_equal. induction ps as [|p ps IH]; simpl; [done|].
  f_equal. apply IH.
Qed.

Lemma vstack_T_symmetric (ps : list Qc) (w : Qc) h :
  vstack_T (map (fun x => x - Fin w)%num (Fin <$> ps))
           (map (fun x => x + Fin w)%num (Fin <$> ps)) h
  = (Ok ((fun p => [Fin (p - w); Fin (p + w)]) <$> ps), h).
Proof.
  unfold vstack_T. rewrite decide_True by (by rewrite !length_map).
  unfold ret. do 2 f_equal. induction ps as [|p ps IH]; simpl; [done|].
  f_equal. apply IH.
Qed.

Lemma getitem_fin (l : list Qc) (i : Z) x h :
  (0 ≤ i)%Z → l !! Z.to_nat i = Some x →
  getitem (Fin <$> l) i h = (Ok (Fin x), h).
Proof.
  intros Hi Hx. apply getitem_ok; [done|]. by rewrite list_lookup_fmap, Hx.
Qed.

Lemma absolute_error_inverse_run h (prediction nc : loc) (ps ncs : list Qc) (s : Qc) :
  h !! prediction = Some (Arr1 (Fin <$> ps)) →
  h !! nc = Some (Arr1 (Fin <$> ncs)) →
  ncs ≠ [] → 0 < s → s < 1 →
  let sorted := reverse (merge_sort Qcle ncs) in
  let border :=
    Z.max (Qfloor (s * Qc_of_Z (Z.of_nat (length ncs) + 1))%Qc - 1) 0 in
  ∃ w,
    (0 ≤ border < Z.of_nat (length ncs))%Z
    ∧ sorted !! Z.to_nat border = Some w
    ∧ absolute_error_inverse prediction nc (Fin s) h
      = (Ok ((fun p => [Fin (p - w); Fin (p + w)]) <$> ps), h).
Proof.
  intros Hp Hnc Hne Hs0 Hs1 sorted border.
  assert (Hn : (1 ≤ length ncs)%nat) by (destruct ncs; [done | simpl; lia]).
  pose proof (border_bounds s (length ncs) Hs0 Hs1 Hn) as Hfl.
  assert (Hb : (0 ≤ border < Z.of_nat (length ncs))%Z).
  { subst border.
    generalize dependent (Qfloor (s * Qc_of_Z (Z.of_nat (length ncs) + 1))%Qc).
    intros; lia. }
  assert (Hidx : (Z.to_nat border < length ncs)%nat ∧ (0 ≤ border)%Z).
  { revert Hb. generalize border. intros; lia. }
  destruct Hidx as [Hlt Hb0].
  destruct (lookup_lt_is_Some_2 sorted (Z.to_nat border)) as [w Hw].
  { subst sorted. by rewrite length_sorted_pool. }
  exists w. split; [done|]. split; [done|].
  unfold absolute_error_inverse.
  rewrite (bind_ok _ _ _ _ _ (read_vec_ok _ _ _ Hnc)).
  rewrite np_sort_fin, <- fmap_reverse, length_fmap, length_sorted_pool.
  simpl. rewrite bind_ret.
  do 2 (erewrite bind_ok;
    [|erewrite bind_ok; [|apply getitem_fin; [exact Hb0 | exact Hw]];
      rewrite (bind_ok _ _ _ _ _ (read_vec_ok _ _ _ Hp)); reflexivity]).
  apply vstack_T_symmetric.
Qed.

Lemma signed_error_inverse_run h (prediction nc : loc) (ps ncs : list Qc) (s : Qc) :
  h !! prediction = Some (Arr1 (Fin <$> ps)) →
  h !! nc = Some (Arr1 (Fin <$> ncs)) →
  ncs ≠ [] → 0 < s → s < 1 →
  let sorted := reverse (merge_sort Qcle ncs) in
  let upper :=
    Z.max (Qfloor (s / 2 * Qc_of_Z (Z.of_nat (length ncs) + 1))%Qc) 0 in
  let lower :=
    Z.min (Qfloor ((1 - s / 2) * Qc_of_Z (Z.of_nat (length ncs) + 1))%Qc)
          (Z.of_nat (length ncs) - 1) in
  ∃ lo hi,
    (0 ≤ upper ≤ lower)%Z ∧ (lower < Z.of_nat (length ncs))%Z
    ∧ sorted !! Z.to_nat lower = Some lo
    ∧ sorted !! Z.to_nat upper = Some hi
    ∧ signed_error_inverse prediction nc (Fin s) h
      = (Ok ((fun p => [Fin (p + lo); Fin (p + hi)]) <$> ps), h).
Proof.
  intros Hp Hnc Hne Hs0 Hs1 sorted upper lower.
  assert (Hn : (1 ≤ length ncs)%nat) by (destruct ncs; [done | simpl; lia]).
  pose proof (signed_bounds s (length ncs) Hs0 Hs1 Hn) as (Hu & Hul & Hl).
  assert (Hb : (0 ≤ upper ≤ lower)%Z ∧ (lower < Z.of_nat (length ncs))%Z).
  { subst upper lower.
    generalize dependent (Qfloor (s / 2 * Qc_of_Z (Z.of_nat (length ncs) + 1))%Qc).
    generalize dependent
      (Qfloor ((1 - s / 2) * Qc_of_Z (Z.of_nat (length ncs) + 1))%Qc).
    intros; lia. }
  assert (Hidx : (Z.to_nat lower < length ncs)%nat ∧ (Z.to_nat upper < length ncs)%nat
                 ∧ (0 ≤ lower)%Z ∧ (0 ≤ upper)%Z).
  { revert Hb. generalize lower upper. intros; lia. }
  destruct Hidx as (Hlt_l & Hlt_u & Hl0 & Hu0).
  destruct (lookup_lt_is_Some_2 sorted (Z.to_nat lower)) as [lo Hlo].
  { subst sorted. by rewrite length_sorted_pool. }
  destruct (lookup_lt_is_Some_2 sorted (Z.to_nat upper)) as [hi Hhi].
  { subst sorted. by rewrite length_sorted_pool. }
  exists lo, hi. destruct Hb as [Hb1 Hb2]. do 4 (split; [done|]).
  unfold signed_error_inverse.
  rewrite (bind_ok _ _ _ _ _ (read_vec_ok _ _ _ Hnc)).
  rewrite np_sort_fin, <- fmap_reverse, length_fmap, length_sorted_pool.
  simpl. rewrite !bind_ret.
  erewrite bind_ok;
    [|erewrite bind_ok; [|apply getitem_fin; [exact Hl0 | exact Hlo]];
      rewrite (bind_ok _ _ _ _ _ (read_vec_ok _ _ _ Hp)); reflexivity].
  erewrite bind_ok;
    [|erewrite bind_ok; [|apply getitem_fin; [exact Hu0 | exact Hhi]];
      rewrite (bind_ok _ _ _ _ _ (read_vec_ok _ _ _ Hp)); reflexivity].
  apply vstack_T_intervals.
Qed.

Lemma descending_sorted_pool (ncs : list Qc) :
  reverse (merge_sort Qcle ncs) ≡ₚ ncs ∧ descending (reverse (merge_sort Qcle ncs)).
Proof.
  split.
  - by rewrite reverse_Permutation, merge_sort_Permutation.
  - apply (StronglySorted_reverse Qcle).
    apply StronglySorted_merge_sort; apply _.
Qed.



#[local] Instance Qc_ge_refl : Reflexive (fun a b : Qc => b ≤ a).
Proof. intros a. apply Qcle_refl. Qed.

Lemma Qc_plus_le_mono_l (p a b : Qc) : a ≤ b → p + a ≤ p + b.
Proof. intros. qc_lra. Qed.

(** C9: on a non-empty pool of numbers and a significance [0 < s < 1], the
    clamped [upper_idx] of [signed_error_inverse] is at most the clamped
    [lower_idx]; so in the descending pool [nc[lower_idx] <= nc[upper_idx]],
    and every row returned has its lower bound at most its upper bound.
    The call returns one row per prediction. *)
Theorem signed_error_inverse_well_formed
    h (prediction nc : loc) (ps ncs : list Qc) (s : Qc) :
  h !! prediction = Some (Arr1 (Fin <$> ps)) →
  h !! nc = Some (Arr1 (Fin <$> ncs)) →
  ncs ≠ [] → 0 < s → s < 1 →
  let sorted := reverse (merge_sort Qcle ncs) in
  let upper_idx :=
    Z.max (Qfloor (s / 2 * Qc_of_Z (Z.of_nat (length ncs) + 1))%Qc) 0 in
  let lower_idx :=
    Z.min (Qfloor ((1 - s / 2) * Qc_of_Z (Z.of_nat (length ncs) + 1))%Qc)
          (Z.of_nat (length ncs) - 1) in
  (upper_idx ≤ lower_idx)%Z
  ∧ ∃ (lo hi : Qc) out,
      sorted !! Z.to_nat lower_idx = Some lo
      ∧ sorted !! Z.to_nat upper_idx = Some hi
      ∧ lo ≤ hi
      ∧ signed_error_inverse prediction nc (Fin s) h = (Ok out, h)
      ∧ length out = length ps
      ∧ Forall (fun row => ∃ a b : Qc, row = [Fin a; Fin b] ∧ a ≤ b) out.
Proof.
  intros Hp Hnc Hne Hs0 Hs1 sorted upper_idx lower_idx.
  destruct (signed_error_inverse_run h prediction nc ps ncs s Hp Hnc Hne Hs0 Hs1)
    as (lo & hi & Hul & Hl & Hlo & Hhi & Hrun).
  fold sorted upper_idx lower_idx in Hul, Hl, Hlo, Hhi.
  destruct (descending_sorted_pool ncs) as [_ Hdesc]. fold sorted in Hdesc.
  split; [apply Hul|].
  assert (Hle : lo ≤ hi).
  { apply (StronglySorted_lookup_le (fun a b : Qc => b ≤ a) sorted
             (Z.to_nat upper_idx) (Z.to_nat lower_idx) hi lo Hdesc);
      [|done..].
    revert Hul. generalize upper_idx lower_idx. intros; lia. }
  exists lo, hi, ((fun p => [Fin (p + lo); Fin (p + hi)]) <$> ps).
  do 4 (split; [done|]). split; [by rewrite length_fmap|].
  apply Forall_fmap, Forall_true. intros p. simpl.
  exists (p + lo), (p + hi). split; [done|]. by apply Qc_plus_le_mono_l.
Qed.

(** C10: neither [absolute_error_inverse] nor [signed_error_inverse] writes
    the calibration pool it is given.  Whatever the arguments and whatever
    the outcome, the array at [nc] is after the call what it was before,
    as is every other array of the heap: [np_sort] builds the sorted array
    anew and the functions never write. *)
Theorem inverse_functions_keep_pool h (prediction nc : loc) (significance : num) :
  (absolute_error_inverse prediction nc significance h).2 !! nc = h !! nc
  ∧ (signed_error_inverse prediction nc significance h).2 !! nc = h !! nc
  ∧ (absolute_error_inverse prediction nc significance h).2 = h
  ∧ (signed_error_inverse prediction nc significance h).2 = h.
Proof.
  pose proof (readonly_absolute_error_inverse prediction nc significance h) as Ha.
  pose proof (readonly_signed_error_inverse prediction nc significance h) as Hs.
  rewrite Ha, Hs. done.
Qed.

(** ** [np.array_equal] *)








(** ** The cache *)

Lemma fresh_not_in_heap (h : heap) : h !! fresh (dom h) = None.
Proof. apply not_elem_of_dom, is_fresh. Qed.

Lemma return_copy_ok {M} (self : adapter M) h cached arr :
  last_prediction self = Some cached → h !! cached = Some arr →
  return_copy self h = (Ok (fresh (dom h)), self, <[fresh (dom h) := arr]> h).
Proof.
  intros Hc Harr. unfold return_copy, ndarray_copy. rewrite Hc.
  by rewrite (bind_ok _ _ _ _ _ (read_ok _ _ _ Harr)).
Qed.

Lemma return_copy_inv {M} (self self' : adapter M) h h' p :
  return_copy self h = (Ok p, self', h') →
  ∃ cached arr,
    last_prediction self = Some cached ∧ h !! cached = Some arr
    ∧ self' = self ∧ p = fresh (dom h) ∧ h' = <[p := arr]> h.
Proof.
  unfold return_copy, ndarray_copy, bind, read.
  destruct (last_prediction self) as [c|]; [|done].
  destruct (h !! c) as [arr|] eqn:Harr; simpl; [|done].
  intros [= <- <- <-]. by exists c, arr.
Qed.


Lemma return_copy_self {M} (self self' : adapter M) h r h' :
  return_copy self h = (r, self', h') → self' = self.
Proof.
  unfold return_copy. destruct (last_prediction self); [|by intros [= _ <- _]].
  destruct (ndarray_copy _ h). by intros [= _ <- _].
Qed.

Section ClassifierCache.
Context {M : Type} {C : Classifier.model M}.

Lemma underlying_predict_hit (self : adapter M) x h :
  must_recompute self x h = false →
  ProbEstClassifierNc.underlying_predict x self h = return_copy self h.
Proof. intros E. unfold ProbEstClassifierNc.underlying_predict. by rewrite E. Qed.


Lemma underlying_predict_miss_inv (self self1 : adapter M) x h p1 h1 :
  must_recompute self x h = true →
  ProbEstClassifierNc.underlying_predict x self h = (Ok p1, self1, h1) →
  ∃ cached arr h0,
    last_x self1 = Some x ∧ last_prediction self1 = Some cached
    ∧ clean self1 = true
    ∧ h0 !! cached = Some arr ∧ p1 = fresh (dom h0) ∧ h1 = <[p1 := arr]> h0.
Proof.
  intros E. unfold ProbEstClassifierNc.underlying_predict. rewrite E. simpl.
  destruct (Classifier.predict_proba x (model self) h) as [[[p|e] m] h0];
    [|done].
  intros (cached & arr & Hc & Harr & -> & Hp & Hh)%return_copy_inv.
  by exists cached, arr, h0.
Qed.


End ClassifierCache.

Lemma regressor_underlying_predict {M} {G : Regressor.model M} :
  RegressorNc.underlying_predict (M := M)
  = ProbEstClassifierNc.underlying_predict (C := as_classifier).
Proof. reflexivity. Qed.

Lemma regressor_fit {M} {G : Regressor.model M} :
  RegressorNc.fit (M := M)
  = ProbEstClassifierNc.fit (C := as_classifier).
Proof. reflexivity. Qed.


(** ** Writes confined to one array *)

Lemma writes_only_readonly {A} l0 (c : Py A) : readonly c → writes_only l0 c.
Proof. intros Hc h l _. by rewrite Hc. Qed.

Lemma writes_only_bind {A B} l0 (c : Py A) (k : A → Py B) :
  writes_only l0 c → (∀ a, writes_only l0 (k a)) → writes_only l0 (bind c k).
Proof.
  intros Hc Hk h l Hl. unfold bind. specialize (Hc h l Hl).
  destruct (c h) as [[a|e] h']; simpl in *; [|done].
  by rewrite Hk.
Qed.

Lemma writes_only_write l0 a : writes_only l0 (write l0 a).
Proof. intros h l Hl. unfold write. simpl. by rewrite lookup_insert_ne. Qed.

Lemma writes_only_setitem2 m i j v : writes_only m (setitem2 m i j v).
Proof.
  unfold setitem2.
  repeat (apply writes_only_bind; [apply writes_only_readonly; solve [auto with readonly]|];
          intros ?).
  apply writes_only_write.
Qed.

Lemma writes_only_for_enumerate {A St} l0 (body : nat → A → St → Py St) i l s :
  (∀ i a s, writes_only l0 (body i a s)) →
  writes_only l0 (for_enumerate body i l s).
Proof.
  intros Hb. revert i s. induction l as [|a l IH]; intros i s; simpl.
  - by apply writes_only_readonly.
  - apply writes_only_bind; [apply Hb | intros; apply IH].
Qed.

Lemma writes_only_margin : writes_only_prediction margin.
Proof.
  intros prediction y. unfold margin.
  apply writes_only_bind; [apply writes_only_readonly; solve [auto with readonly]|].
  intros y_. apply writes_only_bind.
  - apply writes_only_for_enumerate. intros i a s. unfold margin_body.
    repeat (apply writes_only_bind;
            [apply writes_only_readonly; solve [auto with readonly]|]; intros ?).
    apply writes_only_bind; [apply writes_only_setitem2|].
    intros _. by apply writes_only_readonly.
  - intros prob.
    repeat (apply writes_only_bind;
            [apply writes_only_readonly; solve [auto with readonly]|]; intros ?).
    by apply writes_only_readonly.
Qed.

Section ClassifierCopy.
Context {M : Type} {C : Classifier.model M}.

Lemma underlying_predict_inv (self self1 : adapter M) x h p h1 :
  ProbEstClassifierNc.underlying_predict x self h = (Ok p, self1, h1) →
  ∃ cached arr h0,
    last_prediction self1 = Some cached
    ∧ h0 !! cached = Some arr ∧ p = fresh (dom h0) ∧ h1 = <[p := arr]> h0.
Proof.
  intros Hup. destruct (must_recompute self x h) eqn:E.
  - destruct (underlying_predict_miss_inv _ _ _ _ _ _ E Hup)
      as (cached & arr & h0 & _ & Hc & _ & Harr & Hp & Hh).
    by exists cached, arr, h0.
  - rewrite underlying_predict_hit in Hup by done.
    destruct (return_copy_inv _ _ _ _ _ Hup)
      as (cached & arr & Hc & Harr & -> & Hp & Hh).
    by exists cached, arr, h.
Qed.

Lemma classifier_defensive_copy :
  defensive_copy_contract (M := M)
    ProbEstClassifierNc.underlying_predict
    (fun R => ProbEstClassifierNc.calc_nc (R := R)).
Proof.
  intros self self1 h h1 x p Hup.
  destruct (underlying_predict_inv _ _ _ _ _ _ Hup)
    as (cached & arr & h0 & Hc & Harr & Hp & ->).
  assert (Hfresh : h0 !! p = None) by (subst p; apply fresh_not_in_heap).
  assert (Hne : p ≠ cached) by congruence.
  assert (Hcopy : ∀ R (err_func : loc → loc → Py R) (y : loc),
    writes_only_prediction err_func →
    ∃ r h2,
      ProbEstClassifierNc.calc_nc err_func x y self h = (r, self1, h2)
      ∧ h2 !! cached = Some arr).
  { intros R err_func y Hw. unfold ProbEstClassifierNc.calc_nc. rewrite Hup.
    destruct (err_func p y (<[p := arr]> h0)) as [r h2] eqn:Herr.
    exists r, h2. split; [done|].
    pose proof (Hw p y (<[p := arr]> h0) cached ltac:(congruence)) as Hframe.
    rewrite Herr in Hframe. simpl in Hframe.
    by rewrite Hframe, lookup_insert_ne. }
  exists cached, arr. split; [done|].
  split; [by rewrite lookup_insert_ne|]. split; [apply lookup_insert_eq|].
  split; [done|]. split; [|split].
  - intros arr'. by rewrite insert_insert_eq, lookup_insert_ne.
  - exact Hcopy.
  - intros y. apply Hcopy, writes_only_margin.
Qed.
End ClassifierCopy.

Lemma regressor_calc_nc {M} {G : Regressor.model M} R :
  RegressorNc.calc_nc (M := M) (R := R)
  = ProbEstClassifierNc.calc_nc (C := as_classifier).
Proof. reflexivity. Qed.

(** C7: both adapters keep the defensive-copy contract: every call of
    [underlying_predict] that returns gives back a copy of the cached
    prediction, so writing into the returned array, as [margin] does with
    the prediction [calc_nc] hands it, leaves the cached prediction
    unchanged. *)
Theorem adapters_defensive_copy :
  (∀ (M : Type) (C : Classifier.model M),
     defensive_copy_contract (M := M)
       ProbEstClassifierNc.underlying_predict
       (fun R => ProbEstClassifierNc.calc_nc (R := R)))
  ∧ (∀ (M : Type) (G : Regressor.model M),
       defensive_copy_contract (M := M)
         RegressorNc.underlying_predict
         (fun R => RegressorNc.calc_nc (R := R))).
Proof.
  split.
  - intros M C. apply classifier_defensive_copy.
  - intros M G. rewrite regressor_underlying_predict.
    apply (classifier_defensive_copy (C := as_classifier)).
Qed.

(** * The theorems at concrete inputs *)

Lemma error_functions_laws_witness :
  ∃ apy ayp spy syp,
    absolute_error 1%positive 2%positive
      (regression_heap (Fin <$> [Qc_of_Z 1; Qc_of_Z 3]) (Fin <$> [Qc_of_Z 2; Qc_of_Z 2]))
    = (Ok apy,
       regression_heap (Fin <$> [Qc_of_Z 1; Qc_of_Z 3]) (Fin <$> [Qc_of_Z 2; Qc_of_Z 2]))
    ∧ signed_error 1%positive 2%positive
        (regression_heap (Fin <$> [Qc_of_Z 1; Qc_of_Z 3]) (Fin <$> [Qc_of_Z 2; Qc_of_Z 2]))
      = (Ok spy,
         regression_heap (Fin <$> [Qc_of_Z 1; Qc_of_Z 3]) (Fin <$> [Qc_of_Z 2; Qc_of_Z 2]))
    ∧ all_equal apy ayp ∧ all_nonneg apy ∧ all_equal spy (Num.opp <$> syp).
Proof.
  destruct (error_functions_laws
              (regression_heap (Fin <$> [Qc_of_Z 1; Qc_of_Z 3])
                               (Fin <$> [Qc_of_Z 2; Qc_of_Z 2]))
              1%positive 2%positive [Qc_of_Z 1; Qc_of_Z 3] [Qc_of_Z 2; Qc_of_Z 2])
    as (apy & ayp & spy & syp & H1 & _ & H3 & _ & _ & _ & He & Hn & Hs);
    [reflexivity | reflexivity | reflexivity |].
  exists apy, ayp, spy, syp. repeat split; assumption.
Defined.


Lemma two_class_rows_distribution :
  Forall distribution
    [[Fin (frac 7 10); Fin (frac 3 10)]; [Fin (frac 2 10); Fin (frac 8 10)]].
Proof.
  repeat constructor.
  - exists [frac 7 10; frac 3 10]. split; [reflexivity|].
    split; [|by apply Qc_is_canon]. repeat constructor; by vm_compute.
  - exists [frac 2 10; frac 8 10]. split; [reflexivity|].
    split; [|by apply Qc_is_canon]. repeat constructor; by vm_compute.
Defined.

Lemma margin_range_witness :
  ∃ out h',
    margin 1%positive 2%positive
      (classification_heap
         [[Fin (frac 7 10); Fin (frac 3 10)]; [Fin (frac 2 10); Fin (frac 8 10)]]
         [0%Z; 1%Z])
    = (Ok out, h')
    ∧ length out = 2%nat
    ∧ Forall (in_interval 0 1) out.
Proof.
  apply (margin_range
           (classification_heap
              [[Fin (frac 7 10); Fin (frac 3 10)];
               [Fin (frac 2 10); Fin (frac 8 10)]]
              [0%Z; 1%Z])
           1%positive 2%positive
           [[Fin (frac 7 10); Fin (frac 3 10)]; [Fin (frac 2 10); Fin (frac 8 10)]]
           [0%Z; 1%Z]).
  - reflexivity.
  - reflexivity.
  - repeat constructor; simpl; lia.
  - apply two_class_rows_distribution.
  - repeat constructor.
Defined.




Lemma signed_error_inverse_well_formed_witness :
  ∃ out,
    signed_error_inverse 1%positive 2%positive (Fin (frac 2 5))
      (regression_heap (Fin <$> [Qc_of_Z 10; Qc_of_Z 20])
                       (Fin <$> (Qc_of_Z <$> [1; 2; 3; 4; 5]%Z)))
    = (Ok out,
       regression_heap (Fin <$> [Qc_of_Z 10; Qc_of_Z 20])
                       (Fin <$> (Qc_of_Z <$> [1; 2; 3; 4; 5]%Z)))
    ∧ length out = 2%nat
    ∧ Forall (fun row => ∃ a b : Qc, row = [Fin a; Fin b] ∧ a ≤ b) out.
Proof.
  destruct (signed_error_inverse_well_formed
              (regression_heap (Fin <$> [Qc_of_Z 10; Qc_of_Z 20])
                               (Fin <$> (Qc_of_Z <$> [1; 2; 3; 4; 5]%Z)))
              1%positive 2%positive
              [Qc_of_Z 10; Qc_of_Z 20] (Qc_of_Z <$> [1; 2; 3; 4; 5]%Z) (frac 2 5))
    as (_ & lo & hi & out & _ & _ & _ & Hrun & Hlen & Hall);
    [reflexivity | reflexivity | discriminate | reflexivity | reflexivity |].
  exists out. repeat split; assumption.
Defined.


Lemma adapters_defensive_copy_witness :
  ∃ (p : loc) (self1 : adapter unit) (h1 h2 : heap) r,
    ProbEstClassifierNc.underlying_predict
      (C := constant_classifier (Arr2 [[Fin (frac 7 10); Fin (frac 3 10)]]))
      1%positive (init tt)
      (features_heap [[Fin 1; Fin 0]] [0%Z] [[Fin 1; Fin 0]])
    = (Ok p, self1, h1)
    ∧ last_prediction self1 = Some 4%positive
    ∧ p ≠ 4%positive
    ∧ ProbEstClassifierNc.calc_nc
        (C := constant_classifier (Arr2 [[Fin (frac 7 10); Fin (frac 3 10)]]))
        margin 1%positive 2%positive (init tt)
        (features_heap [[Fin 1; Fin 0]] [0%Z] [[Fin 1; Fin 0]])
      = (r, self1, h2)
    ∧ h2 !! 4%positive = Some (Arr2 [[Fin (frac 7 10); Fin (frac 3 10)]]).
Proof.
  assert (Hfirst :
    ProbEstClassifierNc.underlying_predict
      (C := constant_classifier (Arr2 [[Fin (frac 7 10); Fin (frac 3 10)]]))
      1%positive (init tt)
      (features_heap [[Fin 1; Fin 0]] [0%Z] [[Fin 1; Fin 0]])
    = (Ok 5%positive,
       {| last_x := Some 1%positive; last_prediction := Some 4%positive;
          clean := true; model := tt; calls := [CallInfer 1%positive] |},
       <[5%positive := Arr2 [[Fin (frac 7 10); Fin (frac 3 10)]]]>
         (<[4%positive := Arr2 [[Fin (frac 7 10); Fin (frac 3 10)]]]>
            (features_heap [[Fin 1; Fin 0]] [0%Z] [[Fin 1; Fin 0]]))))
    by (vm_compute; reflexivity).
  destruct (proj1 adapters_defensive_copy unit
              (constant_classifier (Arr2 [[Fin (frac 7 10); Fin (frac 3 10)]]))
              _ _ _ _ _ _ Hfirst)
    as (cached & arr & Hc & Harr & _ & Hne & _ & _ & Hmargin).
  destruct (Hmargin 2%positive) as (r & h2 & Hcalc & Hkept).
  simpl in Hc. injection Hc as <-.
  rewrite lookup_insert_ne, lookup_insert_eq in Harr by done.
  injection Harr as <-.
  eexists _, _, _, h2, r.
  split; [exact Hfirst|]. split; [reflexivity|]. split; [exact Hne|].
  split; [exact Hcalc | exact Hkept].
Defined.

(** * Further properties of the score functions *)

Lemma bind_raise {A B} (c : Py A) (k : A → Py B) h e h' :
  c h = (Raise e, h') → bind c k h = (Raise e, h').
Proof. unfold bind. by intros ->. Qed.

Lemma norm_index_empty (j : Z) : norm_index 0 j = None.
Proof.
  unfold norm_index. rewrite !decide_False by (simpl; lia). done.
Qed.

Lemma getitem_empty {A} (j : Z) h : getitem (@nil A) j h = (Raise IndexError, h).
Proof. unfold getitem. simpl. by rewrite norm_index_empty. Qed.

(** X1: on an empty calibration pool both inverse functions raise
    IndexError, whatever the (finite) significance and the prediction, and
    leave the heap as it was. *)
Theorem inverse_functions_empty_pool h (prediction nc : loc) (s : Qc) :
  h !! nc = Some (Arr1 []) →
  absolute_error_inverse prediction nc (Fin s) h = (Raise IndexError, h)
  ∧ signed_error_inverse prediction nc (Fin s) h = (Raise IndexError, h).
Proof.
  intros Hnc. split.
  - unfold absolute_error_inverse.
    rewrite (bind_ok _ _ _ _ _ (read_vec_ok _ _ _ Hnc)).
    change (reverse (np_sort [])) with (@nil num). simpl. rewrite bind_ret.
    erewrite bind_raise; [done|].
    erewrite bind_raise; [done | apply getitem_empty].
  - unfold signed_error_inverse.
    rewrite (bind_ok _ _ _ _ _ (read_vec_ok _ _ _ Hnc)).
    change (reverse (np_sort [])) with (@nil num). simpl. rewrite !bind_ret.
    erewrite bind_raise; [done|].
    erewrite bind_raise; [done | apply getitem_empty].
Qed.

Lemma inverse_functions_empty_pool_witness :
  absolute_error_inverse 1%positive 2%positive (Fin (frac 2 5))
    (regression_heap [Fin 1] [])
  = (Raise IndexError, regression_heap [Fin 1] [])
  ∧ signed_error_inverse 1%positive 2%positive (Fin (frac 2 5))
      (regression_heap [Fin 1] [])
    = (Raise IndexError, regression_heap [Fin 1] []).
Proof.
  apply (inverse_functions_empty_pool (regression_heap [Fin 1] [])
           1%positive 2%positive (frac 2 5)).
  reflexivity.
Defined.








(** X4: the intervals of [absolute_error_inverse] are nested: for
    significances [0 < s1 <= s2 < 1] the half-width at [s2] is at most the
    half-width at [s1], so every interval at [s2] lies inside the interval at
    [s1] for the same prediction. *)
Theorem absolute_error_inverse_nested
    h (prediction nc : loc) (ps ncs : list Qc) (s1 s2 : Qc) :
  h !! prediction = Some (Arr1 (Fin <$> ps)) →
  h !! nc = Some (Arr1 (Fin <$> ncs)) →
  ncs ≠ [] → 0 < s1 → s1 ≤ s2 → s2 < 1 →
  ∃ w1 w2 : Qc,
    w2 ≤ w1
    ∧ absolute_error_inverse prediction nc (Fin s1) h
      = (Ok ((fun p => [Fin (p - w1); Fin (p + w1)]) <$> ps), h)
    ∧ absolute_error_inverse prediction nc (Fin s2) h
      = (Ok ((fun p => [Fin (p - w2); Fin (p + w2)]) <$> ps), h)
    ∧ ∀ p : Qc, p - w1 ≤ p - w2 ∧ p + w2 ≤ p + w1.
Proof.
  intros Hp Hnc Hne Hs1 Hs12 Hs2.
  assert (Hn : (1 ≤ length ncs)%nat) by (destruct ncs; [done | simpl; lia]).
  assert (Hs1' : s1 < 1) by (eapply Qcle_lt_trans; eauto).
  assert (Hs2' : 0 < s2) by (eapply Qclt_le_trans; eauto).
  destruct (absolute_error_inverse_run h prediction nc ps ncs s1 Hp Hnc Hne Hs1 Hs1')
    as (w1 & Hb1 & Hw1 & Hrun1).
  destruct (absolute_error_inverse_run h prediction nc ps ncs s2 Hp Hnc Hne Hs2' Hs2)
    as (w2 & Hb2 & Hw2 & Hrun2).
  destruct (descending_sorted_pool ncs) as [_ Hdesc].
  assert (Hfl : (Qfloor (s1 * Qc_of_Z (Z.of_nat (length ncs) + 1))%Qc
                 ≤ Qfloor (s2 * Qc_of_Z (Z.of_nat (length ncs) + 1))%Qc)%Z).
  { apply Qfloor_resp_le. destruct (pool_size_Q _ Hn) as [HN HM].
    unfold Qcle in Hs12. qc_push. pool_nra HN. }
  assert (Hw : w2 ≤ w1).
  { eapply (StronglySorted_lookup_le (fun a b : Qc => b ≤ a) _ _ _ w1 w2 Hdesc);
      [|exact Hw1 | exact Hw2].
    revert Hfl Hb1 Hb2.
    generalize (Qfloor (s1 * Qc_of_Z (Z.of_nat (length ncs) + 1))%Qc),
               (Qfloor (s2 * Qc_of_Z (Z.of_nat (length ncs) + 1))%Qc).
    intros; lia. }
  exists w1, w2. split; [done|]. split; [done|]. split; [done|].
  intros p. split; qc_lra.
Qed.

Lemma absolute_error_inverse_nested_witness :
  ∃ w1 w2 : Qc,
    w2 ≤ w1
    ∧ absolute_error_inverse 1%positive 2%positive (Fin (frac 1 5))
        (regression_heap (Fin <$> [Qc_of_Z 10])
                         (Fin <$> (Qc_of_Z <$> [1; 2; 3; 4; 5]%Z)))
      = (Ok ((fun p => [Fin (p - w1); Fin (p + w1)]) <$> [Qc_of_Z 10]),
         regression_heap (Fin <$> [Qc_of_Z 10])
                         (Fin <$> (Qc_of_Z <$> [1; 2; 3; 4; 5]%Z)))
    ∧ absolute_error_inverse 1%positive 2%positive (Fin (frac 4 5))
        (regression_heap (Fin <$> [Qc_of_Z 10])
                         (Fin <$> (Qc_of_Z <$> [1; 2; 3; 4; 5]%Z)))
      = (Ok ((fun p => [Fin (p - w2); Fin (p + w2)]) <$> [Qc_of_Z 10]),
         regression_heap (Fin <$> [Qc_of_Z 10])
                         (Fin <$> (Qc_of_Z <$> [1; 2; 3; 4; 5]%Z))).
Proof.
  destruct (absolute_error_inverse_nested
              (regression_heap (Fin <$> [Qc_of_Z 10])
                               (Fin <$> (Qc_of_Z <$> [1; 2; 3; 4; 5]%Z)))
              1%positive 2%positive [Qc_of_Z 10]
              (Qc_of_Z <$> [1; 2; 3; 4; 5]%Z) (frac 1 5) (frac 4 5))
    as (w1 & w2 & Hw & H1 & H2 & _);
    [reflexivity | reflexivity | discriminate
    | by vm_compute | by vm_compute | by vm_compute |].
  exists w1, w2. repeat split; assumption.
Defined.

(** X5: when every calibration score is at least 0, as the scores of
    [absolute_error] are, every interval returned by
    [absolute_error_inverse] contains its prediction. *)
Theorem absolute_error_inverse_contains_prediction
    h (prediction nc : loc) (ps ncs : list Qc) (s : Qc) :
  h !! prediction = Some (Arr1 (Fin <$> ps)) →
  h !! nc = Some (Arr1 (Fin <$> ncs)) →
  ncs ≠ [] → 0 < s → s < 1 →
  Forall (fun x => 0 ≤ x) ncs →
  ∃ w : Qc,
    0 ≤ w ∧ w ∈ ncs
    ∧ absolute_error_inverse prediction nc (Fin s) h
      = (Ok ((fun p => [Fin (p - w); Fin (p + w)]) <$> ps), h)
    ∧ ∀ p : Qc, p - w ≤ p ∧ p ≤ p + w.
Proof.
  intros Hp Hnc Hne Hs0 Hs1 Hpos.
  destruct (absolute_error_inverse_run h prediction nc ps ncs s Hp Hnc Hne Hs0 Hs1)
    as (w & Hb & Hw & Hrun).
  destruct (descending_sorted_pool ncs) as [Hperm _].
  assert (Hin : w ∈ ncs).
  { rewrite <- Hperm. by eapply list_elem_of_lookup_2. }
  assert (Hw0 : 0 ≤ w) by (by apply (proj1 (list.Forall_forall _ _) Hpos)).
  exists w. split; [done|]. split; [done|]. split; [done|].
  intros p. split; qc_lra.
Qed.

Lemma absolute_error_inverse_contains_prediction_witness :
  ∃ w : Qc,
    0 ≤ w
    ∧ absolute_error_inverse 1%positive 2%positive (Fin (frac 2 5))
        (regression_heap (Fin <$> [Qc_of_Z 10])
                         (Fin <$> (Qc_of_Z <$> [1; 2; 3; 4; 5]%Z)))
      = (Ok ((fun p => [Fin (p - w); Fin (p + w)]) <$> [Qc_of_Z 10]),
         regression_heap (Fin <$> [Qc_of_Z 10])
                         (Fin <$> (Qc_of_Z <$> [1; 2; 3; 4; 5]%Z))).
Proof.
  destruct (absolute_error_inverse_contains_prediction
              (regression_heap (Fin <$> [Qc_of_Z 10])
                               (Fin <$> (Qc_of_Z <$> [1; 2; 3; 4; 5]%Z)))
              1%positive 2%positive [Qc_of_Z 10]
              (Qc_of_Z <$> [1; 2; 3; 4; 5]%Z) (frac 2 5))
    as (w & Hw & _ & Hrun & _);
    [reflexivity | reflexivity | discriminate | by vm_compute | by vm_compute
    | repeat constructor; by vm_compute |].
  exists w. split; assumption.
Defined.





Lemma num_mul_inf_of_Z (a : num) (k : Z) :
  (0 < k)%Z → a = PInf ∨ a = NInf ∨ a = NaN → (a * Num.of_Z k)%num = a.
Proof.
  intros Hk Ha.
  assert (Hs : Num.sgn (Num.of_Z k) = 1%Z).
  { unfold Num.sgn, Num.of_Z.
    rewrite decide_False by (apply Qcle_not_lt, (proj1 (Z2Qc_inj_le 0 k)); lia).
    rewrite decide_True by (apply (proj1 (Z2Qc_inj_lt 0 k)); lia). done. }
  destruct Ha as [-> | [-> | ->]]; [| |done];
    unfold Num.mul; unfold Num.of_Z in *; rewrite Hs; done.
Qed.

(** X7: a significance that is not a finite number makes both inverse
    functions fail before they index the pool: NaN raises ValueError and an
    infinity raises OverflowError, whatever the pool and the prediction; the
    heap is left as it was. *)
Theorem inverse_functions_nonfinite_significance h (prediction nc : loc) v :
  h !! nc = Some (Arr1 v) →
  absolute_error_inverse prediction nc NaN h = (Raise ValueError, h)
  ∧ signed_error_inverse prediction nc NaN h = (Raise ValueError, h)
  ∧ (∀ s, s = PInf ∨ s = NInf →
       absolute_error_inverse prediction nc s h = (Raise OverflowError, h)
       ∧ signed_error_inverse prediction nc s h = (Raise OverflowError, h)).
Proof.
  intros Hnc. split; [|split].
  - unfold absolute_error_inverse.
    by rewrite (bind_ok _ _ _ _ _ (read_vec_ok _ _ _ Hnc)).
  - unfold signed_error_inverse.
    by rewrite (bind_ok _ _ _ _ _ (read_vec_ok _ _ _ Hnc)).
  - intros s Hs. split.
    + unfold absolute_error_inverse.
      rewrite (bind_ok _ _ _ _ _ (read_vec_ok _ _ _ Hnc)). cbv zeta.
      rewrite num_mul_inf_of_Z by (lia || tauto).
      by destruct Hs as [-> | ->].
    + unfold signed_error_inverse.
      rewrite (bind_ok _ _ _ _ _ (read_vec_ok _ _ _ Hnc)). cbv zeta.
      assert (Hh : Num.half s = s) by (by destruct Hs as [-> | ->]).
      rewrite Hh, num_mul_inf_of_Z by (lia || tauto).
      by destruct Hs as [-> | ->].
Qed.

Lemma inverse_functions_nonfinite_significance_witness :
  absolute_error_inverse 1%positive 2%positive NaN
    (regression_heap [Fin 1] [Fin 1; Fin 0])
  = (Raise ValueError, regression_heap [Fin 1] [Fin 1; Fin 0])
  ∧ signed_error_inverse 1%positive 2%positive PInf
      (regression_heap [Fin 1] [Fin 1; Fin 0])
    = (Raise OverflowError, regression_heap [Fin 1] [Fin 1; Fin 0]).
Proof.
  destruct (inverse_functions_nonfinite_significance
              (regression_heap [Fin 1] [Fin 1; Fin 0]) 1%positive 2%positive
              [Fin 1; Fin 0])
    as (H1 & _ & H3); [reflexivity|].
  split; [exact H1|]. apply (H3 PInf). left. reflexivity.
Defined.

(** X8: [absolute_error] and [signed_error] raise ValueError, and write
    nothing, when the two arrays differ in length and neither has length
    one. *)
Theorem error_functions_length_mismatch h (prediction y : loc) (p v : list num) :
  h !! prediction = Some (Arr1 p) →
  h !! y = Some (Arr1 v) →
  length p ≠ length v → length p ≠ 1%nat → length v ≠ 1%nat →
  absolute_error prediction y h = (Raise ValueError, h)
  ∧ signed_error prediction y h = (Raise ValueError, h).
Proof.
  intros Hp Hy Hne Hp1 Hv1.
  assert (Hb : ∀ f, broadcast2 f p v h = (Raise ValueError, h)).
  { intros f. unfold broadcast2. rewrite decide_False by done.
    destruct p as [|a [|a' p]], v as [|b [|b' v]]; simpl in *; done. }
  split.
  - unfold absolute_error.
    rewrite (bind_ok _ _ _ _ _ (read_vec_ok _ _ _ Hp)).
    rewrite (bind_ok _ _ _ _ _ (read_vec_ok _ _ _ Hy)).
    by rewrite (bind_raise _ _ _ _ _ (Hb _)).
  - unfold signed_error.
    rewrite (bind_ok _ _ _ _ _ (read_vec_ok _ _ _ Hp)).
    rewrite (bind_ok _ _ _ _ _ (read_vec_ok _ _ _ Hy)).
    apply Hb.
Qed.

Lemma error_functions_length_mismatch_witness :
  absolute_error 1%positive 2%positive
    (regression_heap [Fin 1; Fin 0; Fin 1] [Fin 1; Fin 0])
  = (Raise ValueError, regression_heap [Fin 1; Fin 0; Fin 1] [Fin 1; Fin 0])
  ∧ signed_error 1%positive 2%positive
      (regression_heap [Fin 1; Fin 0; Fin 1] [Fin 1; Fin 0])
    = (Raise ValueError, regression_heap [Fin 1; Fin 0; Fin 1] [Fin 1; Fin 0]).
Proof.
  apply (error_functions_length_mismatch
           (regression_heap [Fin 1; Fin 0; Fin 1] [Fin 1; Fin 0])
           1%positive 2%positive [Fin 1; Fin 0; Fin 1] [Fin 1; Fin 0]).
  - reflexivity.
  - reflexivity.
  - simpl; lia.
  - simpl; lia.
  - simpl; lia.
Defined.

(** ** Labels out of range, and negative labels *)

Lemma overwritten_upto_lookup rows ys i j :
  (i ≤ length rows)%nat → (i ≤ length ys)%nat → (i ≤ j)%nat →
  overwritten_upto rows ys i !! j = rows !! j.
Proof.
  intros Hr Hy Hij. unfold overwritten_upto.
  rewrite lookup_app_r; rewrite length_zip_with, !length_take; [|lia].
  rewrite lookup_drop. f_equal. lia.
Qed.

Lemma overwritten_upto_S rows ys i r yi :
  rows !! i = Some r → ys !! i = Some yi →
  <[i := overwritten r yi]> (overwritten_upto rows ys i)
  = overwritten_upto rows ys (S i).
Proof.
  intros Hr Hy. unfold overwritten_upto.
  pose proof (lookup_lt_Some _ _ _ Hr). pose proof (lookup_lt_Some _ _ _ Hy).
  rewrite insert_app_r_alt; rewrite length_zip_with, !length_take; [|lia].
  match goal with
  | |- context [<[?n := _]> (drop i rows)] => replace n with 0%nat by lia
  end.
  rewrite (drop_S _ _ _ Hr). simpl.
  rewrite (take_S_r _ _ _ Hr), (take_S_r _ _ _ Hy).
  rewrite zip_with_app by (rewrite !length_take; lia).
  by rewrite <- app_assoc.
Qed.

Lemma margin_loop_fail prediction rows ys k r yk :
  ys !! k = Some yk → rows !! k = Some r →
  norm_index (length r) yk = None →
  (∀ j rj yj, (j < k)%nat → rows !! j = Some rj → ys !! j = Some yj →
              (0 ≤ yj < Z.of_nat (length rj))%Z) →
  ∀ n i prob h,
    n = (k - i)%nat → (i ≤ k)%nat →
    h !! prediction = Some (Arr2 (overwritten_upto rows ys i)) →
    for_enumerate (margin_body prediction ys) i (drop i ys) prob h
    = (Raise IndexError, <[prediction := Arr2 (overwritten_upto rows ys k)]> h).
Proof.
  intros Hyk Hrk Hnorm Hprefix.
  pose proof (lookup_lt_Some _ _ _ Hyk) as Hky.
  pose proof (lookup_lt_Some _ _ _ Hrk) as Hkr.
  induction n as [|n IH]; intros i prob h Hn Hi Hm.
  - assert (i = k) as -> by lia.
    rewrite (drop_S _ _ _ Hyk). simpl. unfold margin_body at 1.
    rewrite insert_id by done.
    erewrite bind_raise; [done|].
    erewrite bind_ok; [|apply getitem_ok; [lia | by rewrite Nat2Z.id]].
    erewrite bind_raise; [done|].
    unfold getitem2. rewrite (bind_ok _ _ _ _ _ (read_mat_ok _ _ _ Hm)).
    rewrite overwritten_upto_lookup by lia. rewrite Hrk. simpl. rewrite bind_ret.
    unfold getitem. by rewrite Hnorm.
  - destruct (lookup_lt_is_Some_2 ys i ltac:(lia)) as [yi Hyi].
    destruct (lookup_lt_is_Some_2 rows i ltac:(lia)) as [ri Hri].
    pose proof (Hprefix i ri yi ltac:(lia) Hri Hyi) as Hrange.
    assert (Hcur : overwritten_upto rows ys i !! i = Some ri)
      by (rewrite overwritten_upto_lookup by lia; done).
    rewrite (drop_S _ _ _ Hyi). simpl. unfold margin_body at 1.
    erewrite bind_ok; [|erewrite bind_ok;
      [|apply getitem_ok; [lia | by rewrite Nat2Z.id]]].
    2:{ erewrite bind_ok; [|by eapply getitem2_ok].
        erewrite bind_ok; [|by eapply setitem2_ok]. reflexivity. }
    fold (overwritten ri yi). rewrite (overwritten_upto_S _ _ _ _ _ Hri Hyi).
    rewrite (IH (S i)); [| lia | lia | apply lookup_insert_eq].
    by rewrite insert_insert_eq.
Qed.

(** X9: [margin] is not atomic.  When the label of sample [k] is outside
    its row and the labels before it are in range, [margin] raises
    IndexError having already overwritten the first [k] rows at their
    labels; the rows from [k] on are as they were. *)
Theorem margin_label_out_of_range h (prediction y : loc) rows ys k r yk :
  h !! prediction = Some (Arr2 rows) →
  h !! y = Some (ArrI ys) →
  ys !! k = Some yk → rows !! k = Some r →
  (yk < - Z.of_nat (length r) ∨ Z.of_nat (length r) ≤ yk)%Z →
  (∀ j rj yj, (j < k)%nat → rows !! j = Some rj → ys !! j = Some yj →
              (0 ≤ yj < Z.of_nat (length rj))%Z) →
  margin prediction y h
  = (Raise IndexError, <[prediction := Arr2 (overwritten_upto rows ys k)]> h)
  ∧ (∀ j rj yj, (j < k)%nat → rows !! j = Some rj → ys !! j = Some yj →
       overwritten_upto rows ys k !! j = Some (overwritten rj yj))
  ∧ (∀ j, (k ≤ j)%nat → overwritten_upto rows ys k !! j = rows !! j).
Proof.
  intros Hm Hy Hyk Hrk Hout Hprefix.
  pose proof (lookup_lt_Some _ _ _ Hyk) as Hky.
  pose proof (lookup_lt_Some _ _ _ Hrk) as Hkr.
  split; [|split].
  - unfold margin. rewrite (bind_ok _ _ _ _ _ (read_ivec_ok _ _ _ Hy)).
    erewrite bind_raise; [done|].
    apply (margin_loop_fail prediction rows ys k r yk Hyk Hrk) with (n := k) (i := 0%nat);
      [| done | lia | lia | done].
    unfold norm_index. rewrite !decide_False by lia. done.
  - intros j rj yj Hj Hrj Hyj. unfold overwritten_upto.
    rewrite lookup_app_l by (rewrite length_zip_with, !length_take; lia).
    rewrite lookup_zip_with, !lookup_take_lt by done. rewrite Hrj. simpl.
    by rewrite Hyj.
  - intros j Hj. apply overwritten_upto_lookup; lia.
Qed.

Lemma margin_label_out_of_range_witness :
  margin 1%positive 2%positive
    (classification_heap
       [[Fin (frac 7 10); Fin (frac 3 10)]; [Fin (frac 2 10); Fin (frac 8 10)]]
       [0%Z; 2%Z])
  = (Raise IndexError,
     <[1%positive :=
         Arr2 (overwritten_upto
                 [[Fin (frac 7 10); Fin (frac 3 10)];
                  [Fin (frac 2 10); Fin (frac 8 10)]]
                 [0%Z; 2%Z] 1)]>
       (classification_heap
          [[Fin (frac 7 10); Fin (frac 3 10)]; [Fin (frac 2 10); Fin (frac 8 10)]]
          [0%Z; 2%Z]))
  ∧ overwritten_upto
      [[Fin (frac 7 10); Fin (frac 3 10)]; [Fin (frac 2 10); Fin (frac 8 10)]]
      [0%Z; 2%Z] 1
    = [[NInf; Fin (frac 3 10)]; [Fin (frac 2 10); Fin (frac 8 10)]].
Proof.
  destruct (margin_label_out_of_range
              (classification_heap
                 [[Fin (frac 7 10); Fin (frac 3 10)];
                  [Fin (frac 2 10); Fin (frac 8 10)]]
                 [0%Z; 2%Z])
              1%positive 2%positive
              [[Fin (frac 7 10); Fin (frac 3 10)]; [Fin (frac 2 10); Fin (frac 8 10)]]
              [0%Z; 2%Z] 1 [Fin (frac 2 10); Fin (frac 8 10)] 2%Z)
    as (Hrun & _ & _);
    [reflexivity | reflexivity | reflexivity | reflexivity | right; simpl; lia | |].
  - intros [|j] rj yj Hj Hrj Hyj; [|lia].
    injection Hrj as <-. injection Hyj as <-. simpl. lia.
  - split; [exact Hrun | reflexivity].
Defined.






(** * Further properties of the adapters *)

Section ClassifierFailures.
Context {M : Type} {C : Classifier.model M}.

Lemma classifier_fit_failure :
  fit_failure_contract (M := M)
    Classifier.fit ProbEstClassifierNc.fit ProbEstClassifierNc.underlying_predict.
Proof.
  intros self h h' xt yt e m Hfit.
  eexists. split.
  { unfold ProbEstClassifierNc.fit. rewrite Hfit. reflexivity. }
  simpl. do 5 (split; [done|]).
  intros x cached arr Hhit Hc Harr.
  rewrite underlying_predict_hit by done.
  by apply (return_copy_ok _ _ cached arr).
Qed.

Lemma classifier_inference_failure :
  inference_failure_contract (M := M)
    Classifier.predict_proba ProbEstClassifierNc.underlying_predict.
Proof.
  intros self h h' x e m Hmiss Hinfer.
  eexists. split.
  { unfold ProbEstClassifierNc.underlying_predict. rewrite Hmiss. simpl.
    rewrite Hinfer. reflexivity. }
  simpl. do 4 (split; [done|]).
  intros x2 cached arr Hclean Hc Harr Heq.
  rewrite underlying_predict_hit.
  - by apply (return_copy_ok _ _ cached arr).
  - unfold must_recompute. simpl. by rewrite Hclean, Heq.
Qed.

Lemma classifier_input_alias :
  input_alias_contract (M := M) ProbEstClassifierNc.underlying_predict.
Proof.
  intros self self1 h h1 x p1 Hmiss Hup.
  destruct (underlying_predict_miss_inv _ _ _ _ _ _ Hmiss Hup)
    as (cached & arr & h0 & Hlx & Hc & Hclean & Harr & Hp1 & ->).
  assert (Hfresh : h0 !! p1 = None) by (subst p1; apply fresh_not_in_heap).
  assert (Hne : p1 ≠ cached) by congruence.
  exists cached, arr. split; [done|].
  split; [by rewrite lookup_insert_ne|].
  intros arr' Hxc Hself.
  rewrite underlying_predict_hit.
  - apply (return_copy_ok _ _ cached arr); [done|].
    by rewrite !lookup_insert_ne.
  - unfold must_recompute, array_equal.
    by rewrite Hclean, Hlx, lookup_insert_eq, Hself.
Qed.

Lemma classifier_cache_consistent (self : adapter M) h :
  cache_consistent self →
  (∀ x y, cache_consistent (ProbEstClassifierNc.fit x y self h).1.2)
  ∧ (∀ x, cache_consistent (ProbEstClassifierNc.underlying_predict x self h).1.2)
  ∧ (∀ R (err_func : loc → loc → Py R) x y,
       cache_consistent (ProbEstClassifierNc.calc_nc err_func x y self h).1.2).
Proof.
  intros Hinv.
  assert (Hup : ∀ x,
    cache_consistent (ProbEstClassifierNc.underlying_predict x self h).1.2).
  { intros x. unfold ProbEstClassifierNc.underlying_predict.
    destruct (must_recompute self x h) eqn:E.
    - simpl. destruct (Classifier.predict_proba x (model self) h) as [[[p|e] m] h0].
      + destruct (return_copy _ h0) as [[r self'] h'] eqn:Hret.
        apply return_copy_self in Hret as ->. simpl.
        intros _. simpl. eauto.
      + simpl. intros Hclean. simpl in *. destruct (Hinv Hclean). eauto.
    - destruct (return_copy self h) as [[r self'] h'] eqn:Hret.
      by apply return_copy_self in Hret as ->. }
  split; [|split; [exact Hup|]].
  - intros x y. unfold ProbEstClassifierNc.fit.
    destruct (Classifier.fit x y (model self) h) as [[[[]|e] m] h0]; simpl.
    + by intros ?.
    + exact Hinv.
  - intros R err_func x y. unfold ProbEstClassifierNc.calc_nc.
    specialize (Hup x).
    destruct (ProbEstClassifierNc.underlying_predict x self h)
      as [[[p|e] self'] h']; simpl in *; [|done].
    by destruct (err_func p y h').
Qed.
End ClassifierFailures.

(** X11: a [fit] whose training raises does not invalidate the cache, in
    either adapter: the exception is passed on with the flag [clean] and
    the cached input and prediction as they were, so an input the cache
    answered before the failed training is still answered from the cache,
    without inference. *)
Theorem adapters_fit_failure :
  (∀ (M : Type) (C : Classifier.model M),
     fit_failure_contract (M := M)
       Classifier.fit ProbEstClassifierNc.fit ProbEstClassifierNc.underlying_predict)
  ∧ (∀ (M : Type) (G : Regressor.model M),
       fit_failure_contract (M := M)
         Regressor.fit RegressorNc.fit RegressorNc.underlying_predict).
Proof.
  split.
  - intros M C. apply classifier_fit_failure.
  - intros M G. rewrite regressor_underlying_predict, regressor_fit.
    apply (classifier_fit_failure (C := as_classifier)).
Qed.

(** X12: an inference that raises leaves the cached input replaced and the
    cached prediction not, in either adapter: if the adapter was clean, the
    next call with an input equal to the one that failed returns, without
    inference, the prediction cached for the input before it. *)
Theorem adapters_inference_failure :
  (∀ (M : Type) (C : Classifier.model M),
     inference_failure_contract (M := M)
       Classifier.predict_proba ProbEstClassifierNc.underlying_predict)
  ∧ (∀ (M : Type) (G : Regressor.model M),
       inference_failure_contract (M := M)
         Regressor.predict RegressorNc.underlying_predict).
Proof.
  split.
  - intros M C. apply classifier_inference_failure.
  - intros M G. rewrite regressor_underlying_predict.
    apply (classifier_inference_failure (C := as_classifier)).
Qed.

(** X13: both adapters cache a reference to the input array, not its
    values: after a call that recomputed on [x], writing new values into [x]
    in place is not noticed, and the next call on [x] returns the prediction
    computed for the old values, without inference. *)
Theorem adapters_input_alias :
  (∀ (M : Type) (C : Classifier.model M),
     input_alias_contract (M := M) ProbEstClassifierNc.underlying_predict)
  ∧ (∀ (M : Type) (G : Regressor.model M),
       input_alias_contract (M := M) RegressorNc.underlying_predict).
Proof.
  split.
  - intros M C. apply classifier_input_alias.
  - intros M G. rewrite regressor_underlying_predict.
    apply (classifier_input_alias (C := as_classifier)).
Qed.

Lemma adapters_fit_failure_witness :
  ∃ self' : adapter unit,
    ProbEstClassifierNc.fit (C := broken_classifier) 1%positive 2%positive
      (clean_adapter 1%positive 3%positive)
      (features_heap [[Fin 1; Fin 0]] [0%Z] [[Fin (frac 7 10); Fin (frac 3 10)]])
    = (Raise ModelError, self',
       features_heap [[Fin 1; Fin 0]] [0%Z] [[Fin (frac 7 10); Fin (frac 3 10)]])
    ∧ clean self' = true
    ∧ ProbEstClassifierNc.underlying_predict (C := broken_classifier) 1%positive
        self'
        (features_heap [[Fin 1; Fin 0]] [0%Z] [[Fin (frac 7 10); Fin (frac 3 10)]])
      = (Ok 4%positive, self',
         <[4%positive := Arr2 [[Fin (frac 7 10); Fin (frac 3 10)]]]>
           (features_heap [[Fin 1; Fin 0]] [0%Z]
              [[Fin (frac 7 10); Fin (frac 3 10)]])).
Proof.
  destruct (proj1 adapters_fit_failure unit broken_classifier
              (clean_adapter 1%positive 3%positive)
              (features_heap [[Fin 1; Fin 0]] [0%Z]
                 [[Fin (frac 7 10); Fin (frac 3 10)]])
              (features_heap [[Fin 1; Fin 0]] [0%Z]
                 [[Fin (frac 7 10); Fin (frac 3 10)]])
              1%positive 2%positive ModelError tt eq_refl)
    as (self' & Hfit & _ & _ & Hclean & _ & _ & Hhit).
  exists self'. split; [exact Hfit|]. split; [exact Hclean|].
  apply (Hhit 1%positive 3%positive (Arr2 [[Fin (frac 7 10); Fin (frac 3 10)]]));
    reflexivity.
Defined.

Lemma adapters_inference_failure_witness :
  ∃ self' : adapter unit,
    ProbEstClassifierNc.underlying_predict (C := broken_classifier) 2%positive
      (clean_adapter 1%positive 3%positive)
      (features_heap [[Fin 1; Fin 0]] [0%Z] [[Fin (frac 7 10); Fin (frac 3 10)]])
    = (Raise ModelError, self',
       features_heap [[Fin 1; Fin 0]] [0%Z] [[Fin (frac 7 10); Fin (frac 3 10)]])
    ∧ last_x self' = Some 2%positive
    ∧ ProbEstClassifierNc.underlying_predict (C := broken_classifier) 2%positive
        self'
        (features_heap [[Fin 1; Fin 0]] [0%Z] [[Fin (frac 7 10); Fin (frac 3 10)]])
      = (Ok 4%positive, self',
         <[4%positive := Arr2 [[Fin (frac 7 10); Fin (frac 3 10)]]]>
           (features_heap [[Fin 1; Fin 0]] [0%Z]
              [[Fin (frac 7 10); Fin (frac 3 10)]])).
Proof.
  destruct (proj1 adapters_inference_failure unit broken_classifier
              (clean_adapter 1%positive 3%positive)
              (features_heap [[Fin 1; Fin 0]] [0%Z]
                 [[Fin (frac 7 10); Fin (frac 3 10)]])
              (features_heap [[Fin 1; Fin 0]] [0%Z]
                 [[Fin (frac 7 10); Fin (frac 3 10)]])
              2%positive ModelError tt eq_refl eq_refl)
    as (self' & Hup & Hlx & _ & _ & _ & Hhit).
  exists self'. split; [exact Hup|]. split; [exact Hlx|].
  apply (Hhit 2%positive 3%positive (Arr2 [[Fin (frac 7 10); Fin (frac 3 10)]]));
    reflexivity.
Defined.

Lemma adapters_input_alias_witness :
  ∃ (p1 : loc) (self1 : adapter unit) (h1 : heap) (cached : loc),
    ProbEstClassifierNc.underlying_predict
      (C := constant_classifier (Arr2 [[Fin (frac 7 10); Fin (frac 3 10)]]))
      1%positive (init tt)
      (features_heap [[Fin 1; Fin 0]] [0%Z] [[Fin 1; Fin 0]])
    = (Ok p1, self1, h1)
    ∧ last_prediction self1 = Some cached
    ∧ ProbEstClassifierNc.underlying_predict
        (C := constant_classifier (Arr2 [[Fin (frac 7 10); Fin (frac 3 10)]]))
        1%positive self1 (<[1%positive := Arr2 [[Fin 0; Fin 1]]]> h1)
      = (Ok (fresh (dom (<[1%positive := Arr2 [[Fin 0; Fin 1]]]> h1))), self1,
         <[fresh (dom (<[1%positive := Arr2 [[Fin 0; Fin 1]]]> h1))
             := Arr2 [[Fin (frac 7 10); Fin (frac 3 10)]]]>
           (<[1%positive := Arr2 [[Fin 0; Fin 1]]]> h1)).
Proof.
  assert (Hfirst :
    ProbEstClassifierNc.underlying_predict
      (C := constant_classifier (Arr2 [[Fin (frac 7 10); Fin (frac 3 10)]]))
      1%positive (init tt)
      (features_heap [[Fin 1; Fin 0]] [0%Z] [[Fin 1; Fin 0]])
    = (Ok 5%positive,
       {| last_x := Some 1%positive; last_prediction := Some 4%positive;
          clean := true; model := tt; calls := [CallInfer 1%positive] |},
       <[5%positive := Arr2 [[Fin (frac 7 10); Fin (frac 3 10)]]]>
         (<[4%positive := Arr2 [[Fin (frac 7 10); Fin (frac 3 10)]]]>
            (features_heap [[Fin 1; Fin 0]] [0%Z] [[Fin 1; Fin 0]]))))
    by (vm_compute; reflexivity).
  destruct (proj1 adapters_input_alias unit
              (constant_classifier (Arr2 [[Fin (frac 7 10); Fin (frac 3 10)]]))
              (init tt) _
              (features_heap [[Fin 1; Fin 0]] [0%Z] [[Fin 1; Fin 0]]) _
              1%positive _ eq_refl Hfirst)
    as (cached & arr & Hc & Harr & Halias).
  simpl in Hc. injection Hc as <-.
  rewrite lookup_insert_ne, lookup_insert_eq in Harr by done.
  injection Harr as <-.
  eexists _, _, _, 4%positive.
  split; [exact Hfirst|]. split; [reflexivity|].
  apply Halias; [done | reflexivity].
Defined.

Lemma regressor_cache_consistent {M} {G : Regressor.model M} (self : adapter M) h :
  cache_consistent self →
  (∀ x y, cache_consistent (RegressorNc.fit x y self h).1.2)
  ∧ (∀ x, cache_consistent (RegressorNc.underlying_predict x self h).1.2)
  ∧ (∀ R (err_func : loc → loc → Py R) x y,
       cache_consistent (RegressorNc.calc_nc err_func x y self h).1.2)
  ∧ (∀ I (inverse_err_func : loc → loc → num → Py I) x nc significance,
       cache_consistent
         (RegressorNc.predict inverse_err_func x nc significance self h).1.2).
Proof.
  intros Hinv.
  destruct (classifier_cache_consistent (C := as_classifier) self h Hinv)
    as (Hfit & Hup & Hcalc).
  split; [exact Hfit|]. split; [exact Hup|]. split; [exact Hcalc|].
  intros I inverse_err_func x nc significance. unfold RegressorNc.predict.
  specialize (Hup x). rewrite <- regressor_underlying_predict in Hup.
  destruct (RegressorNc.underlying_predict x self h)
    as [[[p|e] self'] h']; simpl in *; [|done].
  by destruct (inverse_err_func p nc significance h').
Qed.

(** X14: the adapters keep their cache consistent: a clean adapter always
    has a cached input and a cached prediction.  This holds after
    [__init__] and is kept by every method of both adapters, whether the
    method returns or raises and whatever the wrapped model and the
    injected functions do. *)
Theorem adapters_cache_consistent :
  (∀ (M : Type) (m : M), cache_consistent (init m))
  ∧ (∀ (M : Type) (C : Classifier.model M) (self : adapter M) (h : heap),
       cache_consistent self →
       (∀ x y, cache_consistent (ProbEstClassifierNc.fit x y self h).1.2)
       ∧ (∀ x, cache_consistent (ProbEstClassifierNc.underlying_predict x self h).1.2)
       ∧ (∀ R (err_func : loc → loc → Py R) x y,
            cache_consistent (ProbEstClassifierNc.calc_nc err_func x y self h).1.2))
  ∧ (∀ (M : Type) (G : Regressor.model M) (self : adapter M) (h : heap),
       cache_consistent self →
       (∀ x y, cache_consistent (RegressorNc.fit x y self h).1.2)
       ∧ (∀ x, cache_consistent (RegressorNc.underlying_predict x self h).1.2)
       ∧ (∀ R (err_func : loc → loc → Py R) x y,
            cache_consistent (RegressorNc.calc_nc err_func x y self h).1.2)
       ∧ (∀ I (inverse_err_func : loc → loc → num → Py I) x nc significance,
            cache_consistent
              (RegressorNc.predict inverse_err_func x nc significance self h).1.2)).
Proof.
  split; [|split].
  - intros M m. by intros ?.
  - intros M C self h. apply classifier_cache_consistent.
  - intros M G self h. apply regressor_cache_consistent.
Qed.

Lemma adapters_cache_consistent_witness :
  cache_consistent
    (ProbEstClassifierNc.underlying_predict
       (C := constant_classifier (Arr2 [[Fin (frac 7 10); Fin (frac 3 10)]]))
       1%positive (init tt)
       (features_heap [[Fin 1; Fin 0]] [0%Z] [[Fin 1; Fin 0]])).1.2
  ∧ clean
      (ProbEstClassifierNc.underlying_predict
         (C := constant_classifier (Arr2 [[Fin (frac 7 10); Fin (frac 3 10)]]))
         1%positive (init tt)
         (features_heap [[Fin 1; Fin 0]] [0%Z] [[Fin 1; Fin 0]])).1.2
    = true.
Proof.
  split; [|reflexivity].
  apply (proj1 (proj2 adapters_cache_consistent) unit
           (constant_classifier (Arr2 [[Fin (frac 7 10); Fin (frac 3 10)]]))
           (init tt)
           (features_heap [[Fin 1; Fin 0]] [0%Z] [[Fin 1; Fin 0]])).
  apply (proj1 adapters_cache_consistent unit tt).
Defined.

(** X15: [RegressorNc.predict] on a dirty adapter, as after [__init__] or
    [fit], with [absolute_error_inverse] as its inverse function: the model
    is asked once for the prediction of [x], and the call returns for every
    predicted value [q] the interval [[q - w, q + w]] with [w] a score of
    the pool.  The adapter is left clean, caching [x] and the model's
    array; the model's array and the pool are left as they were. *)
Theorem regressor_predict_intervals
    (M : Type) (G : Regressor.model M) (self : adapter M) (h h0 : heap)
    (x nc p : loc) (m' : M) (ps ncs : list Qc) (s : Qc) :
  clean self = false →
  Regressor.predict x (model self) h = (Ok p, m', h0) →
  h0 !! p = Some (Arr1 (Fin <$> ps)) →
  h0 !! nc = Some (Arr1 (Fin <$> ncs)) →
  ncs ≠ [] → 0 < s → s < 1 →
  ∃ (w : Qc) (self1 : adapter M) (h1 : heap),
    RegressorNc.predict absolute_error_inverse x nc (Fin s) self h
    = (Ok ((fun q => [Fin (q - w); Fin (q + w)]) <$> ps), self1, h1)
    ∧ w ∈ ncs
    ∧ last_x self1 = Some x ∧ last_prediction self1 = Some p
    ∧ clean self1 = true ∧ model self1 = m'
    ∧ calls self1 = calls self ++ [CallInfer x]
    ∧ h1 !! p = Some (Arr1 (Fin <$> ps))
    ∧ h1 !! nc = Some (Arr1 (Fin <$> ncs)).
Proof.
  intros Hdirty Hinfer Hp Hnc Hne Hs0 Hs1.
  assert (Hfresh : h0 !! fresh (dom h0) = None) by apply fresh_not_in_heap.
  set (h1 := <[fresh (dom h0) := Arr1 (Fin <$> ps)]> h0).
  assert (Hp1 : h1 !! p = Some (Arr1 (Fin <$> ps)))
    by (subst h1; rewrite lookup_insert_ne by congruence; done).
  assert (Hnc1 : h1 !! nc = Some (Arr1 (Fin <$> ncs)))
    by (subst h1; rewrite lookup_insert_ne by congruence; done).
  destruct (absolute_error_inverse_run h1 (fresh (dom h0)) nc ps ncs s
              ltac:(subst h1; apply lookup_insert_eq) Hnc1 Hne Hs0 Hs1)
    as (w & Hb & Hw & Hrun).
  destruct (descending_sorted_pool ncs) as [Hperm _].
  exists w. eexists _, h1. split.
  { unfold RegressorNc.predict, RegressorNc.underlying_predict, must_recompute.
    rewrite Hdirty. simpl. rewrite Hinfer.
    erewrite (return_copy_ok _ h0 p (Arr1 (Fin <$> ps))); [|done|done].
    fold h1. rewrite Hrun. reflexivity. }
  simpl. split; [rewrite <- Hperm; by eapply list_elem_of_lookup_2|].
  repeat split; done.
Qed.

Lemma regressor_predict_intervals_witness :
  ∃ (w : Qc) (self1 : adapter unit) (h1 : heap),
    RegressorNc.predict
      (G := constant_regressor (Arr1 (Fin <$> [Qc_of_Z 10; Qc_of_Z 20])))
      absolute_error_inverse 1%positive 3%positive (Fin (frac 2 5)) (init tt)
      (calibration_heap [Fin 1] [Fin 0] (Fin <$> (Qc_of_Z <$> [1; 2; 3; 4; 5]%Z)))
    = (Ok ((fun q => [Fin (q - w); Fin (q + w)]) <$> [Qc_of_Z 10; Qc_of_Z 20]),
       self1, h1)
    ∧ w ∈ Qc_of_Z <$> [1; 2; 3; 4; 5]%Z
    ∧ inference_count self1 = 1%nat.
Proof.
  destruct (regressor_predict_intervals unit
              (constant_regressor (Arr1 (Fin <$> [Qc_of_Z 10; Qc_of_Z 20])))
              (init tt)
              (calibration_heap [Fin 1] [Fin 0]
                 (Fin <$> (Qc_of_Z <$> [1; 2; 3; 4; 5]%Z)))
              (<[4%positive := Arr1 (Fin <$> [Qc_of_Z 10; Qc_of_Z 20])]>
                 (calibration_heap [Fin 1] [Fin 0]
                    (Fin <$> (Qc_of_Z <$> [1; 2; 3; 4; 5]%Z))))
              1%positive 3%positive 4%positive tt
              [Qc_of_Z 10; Qc_of_Z 20] (Qc_of_Z <$> [1; 2; 3; 4; 5]%Z) (frac 2 5))
    as (w & self1 & h1 & Hrun & Hw & _ & _ & _ & _ & Hcalls & _);
    [reflexivity | by vm_compute | reflexivity | reflexivity | discriminate
    | by vm_compute | by vm_compute |].
  exists w, self1, h1. split; [exact Hrun|]. split; [exact Hw|].
  unfold inference_count. rewrite Hcalls. reflexivity.
Defined.




(** * Further properties of the score functions, continued *)





Lemma inverse_probability_loop_fail prediction rows ys k r yk h :
  h !! prediction = Some (Arr2 rows) →
  ys !! k = Some yk → rows !! k = Some r →
  norm_index (length r) yk = None →
  (∀ j rj yj, (j < k)%nat → rows !! j = Some rj → ys !! j = Some yj →
              (0 ≤ yj < Z.of_nat (length rj))%Z) →
  ∀ n i prob,
    n = (k - i)%nat → (i ≤ k)%nat →
    for_enumerate (inverse_probability_body prediction ys) i (drop i ys) prob h
    = (Raise IndexError, h).
Proof.
  intros Hm Hyk Hrk Hnorm Hprefix.
  pose proof (lookup_lt_Some _ _ _ Hyk) as Hky.
  pose proof (lookup_lt_Some _ _ _ Hrk) as Hkr.
  induction n as [|n IH]; intros i prob Hn Hi.
  - assert (i = k) as -> by lia.
    rewrite (drop_S _ _ _ Hyk). simpl. unfold inverse_probability_body at 1.
    erewrite bind_raise; [done|].
    erewrite bind_ok; [|apply getitem_ok; [lia | by rewrite Nat2Z.id]].
    erewrite bind_raise; [done|].
    unfold getitem2. rewrite (bind_ok _ _ _ _ _ (read_mat_ok _ _ _ Hm)).
    rewrite Hrk. simpl. rewrite bind_ret. unfold getitem. by rewrite Hnorm.
  - destruct (lookup_lt_is_Some_2 ys i ltac:(lia)) as [yi Hyi].
    destruct (lookup_lt_is_Some_2 rows i ltac:(lia)) as [ri Hri].
    pose proof (Hprefix i ri yi ltac:(lia) Hri Hyi) as Hrange.
    rewrite (drop_S _ _ _ Hyi). simpl. unfold inverse_probability_body at 1.
    erewrite bind_ok; [|erewrite bind_ok;
      [|apply getitem_ok; [lia | by rewrite Nat2Z.id]]].
    2:{ erewrite bind_ok; [|by eapply getitem2_ok]. reflexivity. }
    apply IH; lia.
Qed.

(** X18: when the label of some sample is outside its row, the labels
    before it being in range, [inverse_probability] raises IndexError and
    the prediction matrix, like the rest of the heap, is as it was: unlike
    [margin] it leaves nothing half done. *)
Theorem inverse_probability_label_out_of_range
    h (prediction y : loc) rows ys k r yk :
  h !! prediction = Some (Arr2 rows) →
  h !! y = Some (ArrI ys) →
  ys !! k = Some yk → rows !! k = Some r →
  (yk < - Z.of_nat (length r) ∨ Z.of_nat (length r) ≤ yk)%Z →
  (∀ j rj yj, (j < k)%nat → rows !! j = Some rj → ys !! j = Some yj →
              (0 ≤ yj < Z.of_nat (length rj))%Z) →
  inverse_probability prediction y h = (Raise IndexError, h).
Proof.
  intros Hm Hy Hyk Hrk Hout Hprefix.
  unfold inverse_probability. rewrite (bind_ok _ _ _ _ _ (read_ivec_ok _ _ _ Hy)).
  erewrite bind_raise; [done|].
  apply (inverse_probability_loop_fail prediction rows ys k r yk h Hm Hyk Hrk)
    with (n := k) (i := 0%nat); [| done | lia | lia].
  unfold norm_index. rewrite !decide_False by lia. done.
Qed.

Lemma inverse_probability_label_out_of_range_witness :
  inverse_probability 1%positive 2%positive
    (classification_heap
       [[Fin (frac 7 10); Fin (frac 3 10)]; [Fin (frac 2 10); Fin (frac 8 10)]]
       [0%Z; 2%Z])
  = (Raise IndexError,
     classification_heap
       [[Fin (frac 7 10); Fin (frac 3 10)]; [Fin (frac 2 10); Fin (frac 8 10)]]
       [0%Z; 2%Z]).
Proof.
  apply (inverse_probability_label_out_of_range
           (classification_heap
              [[Fin (frac 7 10); Fin (frac 3 10)];
               [Fin (frac 2 10); Fin (frac 8 10)]]
              [0%Z; 2%Z])
           1%positive 2%positive
           [[Fin (frac 7 10); Fin (frac 3 10)]; [Fin (frac 2 10); Fin (frac 8 10)]]
           [0%Z; 2%Z] 1 [Fin (frac 2 10); Fin (frac 8 10)] 2%Z).
  - reflexivity.
  - reflexivity.
  - reflexivity.
  - reflexivity.
  - right; simpl; lia.
  - intros [|j] rj yj Hj Hrj Hyj; [|lia].
    injection Hrj as <-. injection Hyj as <-. simpl. lia.
Defined.

(** X19: the intervals of [signed_error_inverse] are nested: for
    significances [0 < s1 <= s2 < 1] the lower offset at [s2] is at least
    the one at [s1] and the upper offset at most the one at [s1], so every
    interval at [s2] lies inside the interval at [s1] for the same
    prediction. *)
Theorem signed_error_inverse_nested
    h (prediction nc : loc) (ps ncs : list Qc) (s1 s2 : Qc) :
  h !! prediction = Some (Arr1 (Fin <$> ps)) →
  h !! nc = Some (Arr1 (Fin <$> ncs)) →
  ncs ≠ [] → 0 < s1 → s1 ≤ s2 → s2 < 1 →
  ∃ lo1 hi1 lo2 hi2 : Qc,
    lo1 ≤ lo2 ∧ lo2 ≤ hi2 ∧ hi2 ≤ hi1
    ∧ signed_error_inverse prediction nc (Fin s1) h
      = (Ok ((fun p => [Fin (p + lo1); Fin (p + hi1)]) <$> ps), h)
    ∧ signed_error_inverse prediction nc (Fin s2) h
      = (Ok ((fun p => [Fin (p + lo2); Fin (p + hi2)]) <$> ps), h)
    ∧ ∀ p : Qc, p + lo1 ≤ p + lo2 ∧ p + hi2 ≤ p + hi1.
Proof.
  intros Hp Hnc Hne Hs1 Hs12 Hs2.
  assert (Hn : (1 ≤ length ncs)%nat) by (destruct ncs; [done | simpl; lia]).
  assert (Hs1' : s1 < 1) by (eapply Qcle_lt_trans; eauto).
  assert (Hs2' : 0 < s2) by (eapply Qclt_le_trans; eauto).
  destruct (signed_error_inverse_run h prediction nc ps ncs s1 Hp Hnc Hne Hs1 Hs1')
    as (lo1 & hi1 & Hul1 & Hlt1 & Hlo1 & Hhi1 & Hrun1).
  destruct (signed_error_inverse_run h prediction nc ps ncs s2 Hp Hnc Hne Hs2' Hs2)
    as (lo2 & hi2 & Hul2 & Hlt2 & Hlo2 & Hhi2 & Hrun2).
  destruct (descending_sorted_pool ncs) as [_ Hdesc].
  destruct (pool_size_Q _ Hn) as [HN HM].
  assert (Hu : (Qfloor (s1 / 2 * Qc_of_Z (Z.of_nat (length ncs) + 1))%Qc
                ≤ Qfloor (s2 / 2 * Qc_of_Z (Z.of_nat (length ncs) + 1))%Qc)%Z).
  { apply Qfloor_resp_le. unfold Qcle in Hs12. qc_push. pool_nra HN. }
  assert (Hl : (Qfloor ((1 - s2 / 2) * Qc_of_Z (Z.of_nat (length ncs) + 1))%Qc
                ≤ Qfloor ((1 - s1 / 2) * Qc_of_Z (Z.of_nat (length ncs) + 1))%Qc)%Z).
  { apply Qfloor_resp_le. unfold Qcle in Hs12. qc_push.
    change (this 1) with 1%Q. pool_nra HN. }
  assert (Hlo : lo1 ≤ lo2).
  { eapply (StronglySorted_lookup_le (fun a b : Qc => b ≤ a) _ _ _ lo2 lo1 Hdesc);
      [|exact Hlo2 | exact Hlo1].
    revert Hl Hul1 Hul2.
    generalize (Qfloor ((1 - s1 / 2) * Qc_of_Z (Z.of_nat (length ncs) + 1))%Qc),
               (Qfloor ((1 - s2 / 2) * Qc_of_Z (Z.of_nat (length ncs) + 1))%Qc),
               (Qfloor (s1 / 2 * Qc_of_Z (Z.of_nat (length ncs) + 1))%Qc),
               (Qfloor (s2 / 2 * Qc_of_Z (Z.of_nat (length ncs) + 1))%Qc).
    intros; lia. }
  assert (Hhi : hi2 ≤ hi1).
  { eapply (StronglySorted_lookup_le (fun a b : Qc => b ≤ a) _ _ _ hi1 hi2 Hdesc);
      [|exact Hhi1 | exact Hhi2].
    revert Hu Hul1 Hul2.
    generalize (Qfloor ((1 - s1 / 2) * Qc_of_Z (Z.of_nat (length ncs) + 1))%Qc),
               (Qfloor ((1 - s2 / 2) * Qc_of_Z (Z.of_nat (length ncs) + 1))%Qc),
               (Qfloor (s1 / 2 * Qc_of_Z (Z.of_nat (length ncs) + 1))%Qc),
               (Qfloor (s2 / 2 * Qc_of_Z (Z.of_nat (length ncs) + 1))%Qc).
    intros; lia. }
  assert (Hmid : lo2 ≤ hi2).
  { eapply (StronglySorted_lookup_le (fun a b : Qc => b ≤ a) _ _ _ hi2 lo2 Hdesc);
      [|exact Hhi2 | exact Hlo2].
    revert Hul2.
    generalize (Qfloor ((1 - s2 / 2) * Qc_of_Z (Z.of_nat (length ncs) + 1))%Qc),
               (Qfloor (s2 / 2 * Qc_of_Z (Z.of_nat (length ncs) + 1))%Qc).
    intros; lia. }
  exists lo1, hi1, lo2, hi2. do 5 (split; [done|]).
  intros p. split; qc_lra.
Qed.

Lemma signed_error_inverse_nested_witness :
  ∃ lo1 hi1 lo2 hi2 : Qc,
    lo1 ≤ lo2 ∧ lo2 ≤ hi2 ∧ hi2 ≤ hi1
    ∧ signed_error_inverse 1%positive 2%positive (Fin (frac 1 5))
        (regression_heap (Fin <$> [Qc_of_Z 10])
                         (Fin <$> (Qc_of_Z <$> [1; 2; 3; 4; 5]%Z)))
      = (Ok ((fun p => [Fin (p + lo1); Fin (p + hi1)]) <$> [Qc_of_Z 10]),
         regression_heap (Fin <$> [Qc_of_Z 10])
                         (Fin <$> (Qc_of_Z <$> [1; 2; 3; 4; 5]%Z)))
    ∧ signed_error_inverse 1%positive 2%positive (Fin (frac 4 5))
        (regression_heap (Fin <$> [Qc_of_Z 10])
                         (Fin <$> (Qc_of_Z <$> [1; 2; 3; 4; 5]%Z)))
      = (Ok ((fun p => [Fin (p + lo2); Fin (p + hi2)]) <$> [Qc_of_Z 10]),
         regression_heap (Fin <$> [Qc_of_Z 10])
                         (Fin <$> (Qc_of_Z <$> [1; 2; 3; 4; 5]%Z))).
Proof.
  destruct (signed_error_inverse_nested
              (regression_heap (Fin <$> [Qc_of_Z 10])
                               (Fin <$> (Qc_of_Z <$> [1; 2; 3; 4; 5]%Z)))
              1%positive 2%positive [Qc_of_Z 10]
              (Qc_of_Z <$> [1; 2; 3; 4; 5]%Z) (frac 1 5) (frac 4 5))
    as (lo1 & hi1 & lo2 & hi2 & H1 & H2 & H3 & H4 & H5 & _);
    [reflexivity | reflexivity | discriminate
    | by vm_compute | by vm_compute | by vm_compute |].
  exists lo1, hi1, lo2, hi2. repeat split; assumption.
Defined.


